(** * B-Store server: the document store and the resource handlers

    A shallow embedding of the Express handlers of the B-Store backend.
    The server variants are embedded each in a module of its own:

    - [Cloud]: the variant that keeps its JSON documents as raw objects in
      Cloudinary ([saveJsonToCloudinary], [loadJsonFromCloudinary],
      [ensureJsonExists] and the routes built on them), and [InFlight]: its
      three helper functions with the upload of a document followed from the
      call to the answer of Cloudinary;
    - [Hybrid]: the variant that keeps [products.json] on the local disk and
      only the images in Cloudinary (its [DELETE /products/:id] route), and
      [HybridRoutes]: its other routes and what it does when it is loaded;
    - [Disk]: the oldest variant, which only uploads and lists receipts kept
      in a local file.

    Conventions of the embedding.

    - JSON documents are kept in parsed form ([json]); [JSON.stringify]
      followed by [JSON.parse] is the identity on such values, and a property
      holding [undefined] is dropped by [JSON.stringify], so [undefined] only
      appears as the [None] of an [option json].
    - Numbers are integers ([Z]): the only numbers the handlers compute with
      are [Date.now()] and the result of [parseInt], [None] standing for NaN.
      A JavaScript number is a double: an integer stands for the double
      nearest to it ([to_double]), which is the integer itself up to [2^53]
      in magnitude.  [parseInt] returns the rounded value, and [===]
      compares numbers after rounding.
    - Strings are sequences of code units below 256.
    - A request is handled from start to end without interleaving, and a call
      to the Cloudinary API takes effect when it is made.  In [Cloud] an
      upload of a document has succeeded when [saveJsonToCloudinary]
      returns, which is what the routes rely on; the source does not wait
      for the upload and hands its failure to a callback that only logs it,
      and [InFlight] follows the helper functions without this convention.
      A [destroy] may be rejected.
    - A handler that ends in [Throws] is an [async] handler whose promise is
      rejected: it has sent no answer of its own. *)

From Stdlib Require Import ZArith String Ascii List Lia Bool.
From stdpp Require Import base option list gmap strings pretty.
Import ListNotations.

Local Open Scope string_scope.
Local Open Scope Z_scope.

(** ** JavaScript values and the runtime functions the handlers call *)

Module Js.

#[local] Set Warnings "-register-all".

Inductive json : Type :=
  | JNull
  | JBool (b : bool)
  | JNum (n : Z)
  | JStr (s : string)
  | JArr (items : list json)
  | JObj (props : list (string * json)).

(** A JavaScript value that may be [undefined]. *)
Definition jsval : Type := option json.

Inductive exn : Type :=
  | TypeError (msg : string)
  | SyntaxError
  | ApiError (msg : string)
  | SystemError (code : string).

(** Completion of an expression: a value, or a thrown exception. *)
Inductive completion (A : Type) : Type :=
  | Normal (a : A)
  | Throws (e : exn).
Arguments Normal {A} a.
Arguments Throws {A} e.

(** ToBoolean, on the values JSON can hold. *)
Definition truthy (v : json) : bool :=
  match v with
  | JNull => false
  | JBool b => b
  | JNum n => negb (n =? 0)
  | JStr s => negb (String.eqb s "")
  | JArr _ => true
  | JObj _ => true
  end.

Definition truthy_v (v : jsval) : bool :=
  match v with
  | Some j => truthy j
  | None => false
  end.

(** [a || b]. *)
Definition js_or (a b : jsval) : jsval :=
  if truthy_v a then a else b.

Fixpoint assoc (k : string) (ps : list (string * json)) : jsval :=
  match ps with
  | [] => None
  | (k', v) :: ps' => if String.eqb k k' then Some v else assoc k ps'
  end.

(** [v.k], for the property names the handlers read ([id], [orderId],
    [name], [price], [description], [quantity], [imageUrl], [cloudinaryId]);
    none of them is inherited from a prototype, so only an object can hold
    one.  Reading a property of [null] throws. *)
Definition get_prop (v : json) (k : string) : completion jsval :=
  match v with
  | JNull => Throws (TypeError "Cannot read properties of null")
  | JObj ps => Normal (assoc k ps)
  | _ => Normal None
  end.

Fixpoint assign_assoc (k : string) (v : json) (ps : list (string * json))
  : list (string * json) :=
  match ps with
  | [] => [(k, v)]
  | (k', v') :: ps' =>
      if String.eqb k k' then (k, v) :: ps' else (k', v') :: assign_assoc k v ps'
  end.

Fixpoint remove_assoc (k : string) (ps : list (string * json))
  : list (string * json) :=
  match ps with
  | [] => []
  | (k', v') :: ps' =>
      if String.eqb k k' then remove_assoc k ps' else (k', v') :: remove_assoc k ps'
  end.

(** [o.k = v] on an object: an existing property keeps its place, a new one
    goes last.  A property set to [undefined] does not survive
    [JSON.stringify], the only way the object is looked at afterwards. *)
Definition set_prop (o : json) (k : string) (v : jsval) : json :=
  match o, v with
  | JObj ps, Some j => JObj (assign_assoc k j ps)
  | JObj ps, None => JObj (remove_assoc k ps)
  | _, _ => o
  end.

(** An object literal [{k1: v1, ...}] as [JSON.stringify] shows it. *)
Definition object_literal (fields : list (string * jsval)) : json :=
  JObj (omap (fun kv => match kv.2 with
                        | Some j => Some (kv.1, j)
                        | None => None
                        end) fields).

(** [Array.prototype.findIndex]; [None] is the [-1] of the source. *)
Fixpoint findIndex (f : json -> completion bool) (l : list json)
  : completion (option nat) :=
  match l with
  | [] => Normal None
  | x :: l' =>
      match f x with
      | Throws e => Throws e
      | Normal true => Normal (Some 0%nat)
      | Normal false =>
          match findIndex f l' with
          | Normal (Some i) => Normal (Some (S i))
          | r => r
          end
      end
  end.

(** *** [parseInt] *)

Definition is_white_space (c : ascii) : bool :=
  let n := Z.of_N (N_of_ascii c) in
  (n =? 9) || (n =? 10) || (n =? 11) || (n =? 12) || (n =? 13)
  || (n =? 32) || (n =? 160).

Fixpoint trim_start (s : string) : string :=
  match s with
  | String c s' => if is_white_space c then trim_start s' else s
  | EmptyString => s
  end.

Definition digit_value (c : ascii) : option Z :=
  let n := Z.of_N (N_of_ascii c) in
  if (48 <=? n) && (n <=? 57) then Some (n - 48)
  else if (97 <=? n) && (n <=? 122) then Some (n - 87)
  else if (65 <=? n) && (n <=? 90) then Some (n - 55)
  else None.

Definition radix_digit (R : Z) (c : ascii) : option Z :=
  match digit_value c with
  | Some d => if d <? R then Some d else None
  | None => None
  end.

(** The longest prefix of radix-[R] digits, read as a number; [acc] is
    [None] until a digit has been seen. *)
Fixpoint read_digits (R : Z) (s : string) (acc : option Z) : option Z :=
  match s with
  | EmptyString => acc
  | String c s' =>
      match radix_digit R c with
      | Some d => read_digits R s' (Some (default 0 acc * R + d))
      | None => acc
      end
  end.

Definition strip_sign (s : string) : Z * string :=
  match s with
  | String "-" r => (-1, r)
  | String "+" r => (1, r)
  | _ => (1, s)
  end.

Definition strip_hex_prefix (s : string) : option string :=
  match s with
  | String "0" (String "x" r) => Some r
  | String "0" (String "X" r) => Some r
  | _ => None
  end.

(** The Number value for a non-negative integer [a]: the nearest double,
    a tie going to the even significand.  Up to [2^53] every integer is a
    double; above, a double is a 53-bit significand [q] times a power of
    two.  What rounds to [2^1024] or more is [Infinity], for which [2^1024]
    stands. *)
Definition round_magnitude (a : Z) : Z :=
  if a <? 2 ^ 53 then a
  else
    let e := Z.log2 a - 52 in
    let q := a / 2 ^ e in
    let r := a mod 2 ^ e in
    let half := 2 ^ (e - 1) in
    let q' := if (half <? r) || ((r =? half) && Z.odd q) then q + 1 else q in
    let v := q' * 2 ^ e in
    if 2 ^ 1024 <=? v then 2 ^ 1024 else v.

(** The Number value for an integer. *)
Definition to_double (z : Z) : Z := Z.sgn z * round_magnitude (Z.abs z).

(** [parseInt(s, radix)]; [radix = 0] is the call with one argument.  The
    result is a number, that is a double: the integer the digits write,
    rounded by [to_double].  (Past twenty significant digits ECMAScript lets
    an engine drop decimal digits before rounding; V8 rounds the exact
    integer, which is what is written here.  The handlers call [parseInt]
    with no radix or with radix 10.) *)
Definition parseInt (s : string) (radix : Z) : option Z :=
  let '(sign, body) := strip_sign (trim_start s) in
  let number (digits : Z) := to_double (sign * digits) in
  if (radix =? 0) || (radix =? 16) then
    match strip_hex_prefix body with
    | Some hex => number <$> read_digits 16 hex None
    | None =>
        number <$> read_digits (if radix =? 0 then 10 else radix) body None
    end
  else if (radix <? 2) || (36 <? radix) then None
  else number <$> read_digits radix body None.

(** The reading of a path id as the specification words it, the integer of
    its leading decimal digits, for comparison with [parseInt]. *)
Definition is_decimal_digit (c : ascii) : bool :=
  let n := Z.of_N (N_of_ascii c) in (48 <=? n) && (n <=? 57).

Fixpoint leading_decimal_prefix (s : string) : string :=
  match s with
  | String c s' =>
      if is_decimal_digit c then String c (leading_decimal_prefix s')
      else EmptyString
  | EmptyString => EmptyString
  end.

Fixpoint decimal_value (digits : string) (acc : Z) : Z :=
  match digits with
  | String c s' => decimal_value s' (acc * 10 + (Z.of_N (N_of_ascii c) - 48))
  | EmptyString => acc
  end.

Definition id_by_decimal_prefix (s : string) : option Z :=
  match leading_decimal_prefix s with
  | EmptyString => None
  | digits => Some (decimal_value digits 0)
  end.

(** [p.id === n] where [n] is a result of [parseInt].  Both sides are
    doubles: a number of a stored document is the double [JSON.parse] reads
    from its digits. *)
Definition strict_eq_num (v : jsval) (n : option Z) : bool :=
  match v, n with
  | Some (JNum m), Some k => to_double m =? to_double k
  | _, _ => false
  end.

(** [r.orderId === s] where [s] is a string. *)
Definition strict_eq_str (v : jsval) (s : string) : bool :=
  match v with
  | Some (JStr t) => String.eqb t s
  | _ => false
  end.

(** *** What the routes share *)

(** The methods [findIndex], [map], [push], [unshift] and [splice] exist on
    arrays only. *)
Definition as_array (v : json) : completion (list json) :=
  match v with
  | JArr l => Normal l
  | JNull => Throws (TypeError "Cannot read properties of null")
  | _ => Throws (TypeError "is not a function")
  end.

(** [p => p.id === n], where [n] is the [parseInt] of the path id. *)
Definition id_is (n : option Z) (p : json) : completion bool :=
  match get_prop p "id" with
  | Normal v => Normal (strict_eq_num v n)
  | Throws e => Throws e
  end.

(** [products[index]]; reading a property of an element that is not there
    throws. *)
Definition element (products : list json) (index : nat) : completion json :=
  match products !! index with
  | Some p => Normal p
  | None => Throws (TypeError "Cannot read properties of undefined")
  end.

(** A response sent with [res.status(s).json(body)]; [res.json] alone
    sends status 200. *)
Record response : Type := Response {
  status : Z;
  body : json;
}.

(** *** The string operations of the id normalisation *)

Definition is_slash_or_dot (c : ascii) : bool :=
  (Ascii.eqb c "/") || (Ascii.eqb c ".").

(** Splits a reversed string at its first [/] or [.]. *)
Fixpoint span_ext (r : list ascii) : list ascii * list ascii :=
  match r with
  | [] => ([], [])
  | c :: r' =>
      if is_slash_or_dot c then ([], r)
      else let '(e, rest) := span_ext r' in (c :: e, rest)
  end.

(** [s.replace(/\.[^/.]+$/, "")]. *)
Definition strip_extension (s : string) : string :=
  match span_ext (rev (list_ascii_of_string s)) with
  | (_ :: _, "."%char :: rest) => string_of_list_ascii (rev rest)
  | _ => s
  end.

(** [s.includes("/")]. *)
Fixpoint includes_slash (s : string) : bool :=
  match s with
  | EmptyString => false
  | String c s' => Ascii.eqb c "/" || includes_slash s'
  end.

End Js.

(** ** Computations with effects *)

Module Effects.
Import Js.

Section WithState.
Context {W : Type}.

(** Computations that read and change a state [W] and may throw; what was
    done before a throw stays done. *)
Definition M (A : Type) : Type := W -> completion A * W.

Definition ret {A} (a : A) : M A := fun w => (Normal a, w).

Definition bind {A B} (c : M A) (k : A -> M B) : M B :=
  fun w =>
    match c w with
    | (Normal a, w') => k a w'
    | (Throws e, w') => (Throws e, w')
    end.

Definition lift {A} (c : completion A) : M A := fun w => (c, w).

Definition try_catch {A} (c : M A) (handler : exn -> M A) : M A :=
  fun w =>
    match c w with
    | (Normal a, w') => (Normal a, w')
    | (Throws e, w') => handler e w'
    end.

End WithState.

Arguments M W A : clear implicits.

Notation "x <- c ;; k" := (bind c (fun x => k))
  (at level 100, c at next level, right associativity).
Notation "c ;;; k" := (bind c (fun _ => k))
  (at level 100, right associativity).

End Effects.

(** ** The variant that keeps its documents in Cloudinary *)

Module Cloud.
Import Js Effects.

(** A call that changes something at Cloudinary. *)
Inductive event : Type :=
  | Upload (public_id : string) (content : json)
  | Destroy (public_id : json).

(** What the handlers can see and change outside the process: the raw
    documents, by full public id, and the calls made so far. *)
Record world : Type := World {
  docs : gmap string json;
  trace : list event;
}.

(** What a request finds around it: the clock, and whether Cloudinary
    rejects a [destroy] of a given id. *)
Record env : Type := Env {
  Date_now : Z;
  Date_toISOString : string;
  destroy_rejects : json -> bool;
}.

Definition M : Type -> Type := Effects.M world.

(** *** Helper functions for JSON in Cloudinary *)

(** [cloudinary.uploader.upload_stream] with [overwrite: true], for a raw
    object under [folder]. *)
Definition upload_raw (folder public_id : string) (content : json) : M unit :=
  fun w =>
    let full := folder +:+ "/" +:+ public_id in
    (Normal tt,
     {| docs := <[full := content]> (docs w);
        trace := trace w ++ [Upload full content] |}).

(** [cloudinary.api.resource] followed by the fetch of the object and
    [res.json()]; throws when there is no such object. *)
Definition fetch_raw (full_id : string) : M json :=
  fun w =>
    match docs w !! full_id with
    | Some v => (Normal v, w)
    | None => (Throws (ApiError "Resource not found"), w)
    end.

Definition saveJsonToCloudinary (publicId : string) (jsonData : json) : M unit :=
  upload_raw "bstore_data" publicId jsonData.

Definition loadJsonFromCloudinary (publicId : string) : M json :=
  try_catch (fetch_raw ("bstore_data/" +:+ publicId)) (fun _ => ret JNull).

Definition ensureJsonExists (publicId : string) (defaultValue : json) : M json :=
  data <- loadJsonFromCloudinary publicId ;;
  if negb (truthy data) then
    saveJsonToCloudinary publicId defaultValue ;;;
    ret defaultValue
  else ret data.

(** [cloudinary.uploader.destroy(id, ...)]: the call is made, and Cloudinary
    either answers or the returned promise is rejected. *)
Definition uploader_destroy (e : env) (public_id : json) : M unit :=
  fun w =>
    let w' := {| docs := docs w; trace := trace w ++ [Destroy public_id] |} in
    if destroy_rejects e public_id
    then (Throws (ApiError "destroy failed"), w')
    else (Normal tt, w').

(** *** Requests and responses *)

(** [req.file], as multer-storage-cloudinary fills it. *)
Record file : Type := File {
  file_path : string;
  file_filename : string;
}.

Definition str (s : string) : jsval := Some (JStr s).
Definition opt_str (s : option string) : jsval := JStr <$> s.

Definition not_found (what : string) : response :=
  Response 404 (JObj [("error", JStr (what +:+ " not found"))]).

(** *** Settings *)

Definition post_upload_qrcode (f : option file) : M response :=
  match f with
  | None => ret (Response 400 (JObj [("error", JStr "No QR code uploaded")]))
  | Some f =>
      let settings :=
        JObj [("qrCodeUrl", JStr (file_path f));
              ("cloudinaryId", JStr (file_filename f))] in
      saveJsonToCloudinary "settings" settings ;;;
      ret (Response 200
             (JObj [("success", JBool true);
                    ("message", JStr "QR Code updated");
                    ("qrCodeUrl", JStr (file_path f));
                    ("cloudinaryId", JStr (file_filename f))]))
  end.

Definition get_settings : M response :=
  settings <- ensureJsonExists "settings" (JObj [("qrCodeUrl", JStr "")]) ;;
  ret (Response 200 settings).

(** *** Receipts *)

(** The text fields of the multipart body of [POST /upload]. *)
Record upload_body : Type := UploadBody {
  u_total : option string;
  u_timestamp : option string;
  u_note : option string;
  u_cname : option string;
  u_orderId : option string;
  u_paymentMethod : option string;
  u_cartItems : option string;
}.

Definition minimal_item (item : json) : completion json :=
  match get_prop item "id", get_prop item "name",
        get_prop item "price", get_prop item "quantity" with
  | Normal i, Normal n, Normal p, Normal q =>
      Normal (object_literal
                [("id", i); ("name", n); ("price", p); ("quantity", q)])
  | Throws e, _, _, _ => Throws e
  | _, Throws e, _, _ => Throws e
  | _, _, Throws e, _ => Throws e
  | _, _, _, Throws e => Throws e
  end.

Fixpoint map_items (l : list json) : completion (list json) :=
  match l with
  | [] => Normal []
  | x :: l' =>
      match minimal_item x with
      | Throws e => Throws e
      | Normal y =>
          match map_items l' with
          | Normal ys => Normal (y :: ys)
          | Throws e => Throws e
          end
      end
  end.

(** [cartItems.map(item => ({id, name, price, quantity}))]. *)
Definition minimalCartItems (cartItems : json) : completion (list json) :=
  match as_array cartItems with
  | Normal l => map_items l
  | Throws e => Throws e
  end.

Section Receipts.

(** [JSON.parse] of the runtime; [None] when it throws [SyntaxError]. *)
Variable JSON_parse : string -> option json.

(** The [try { cartItems = JSON.parse(cartItems) } catch { cartItems = [] }]
    of the handler; an absent field is [undefined], which [JSON.parse] reads
    as the text [undefined]. *)
Definition parse_cartItems (field : option string) : json :=
  default (JArr []) (JSON_parse (default "undefined" field)).

Definition receiptMeta (e : env) (b : upload_body) (f : option file)
    (minimal : list json) : json :=
  let meta :=
    object_literal
      [("orderId", js_or (opt_str (u_orderId b))
                     (str ("ORD" +:+ pretty (Date_now e))));
       ("cname", js_or (opt_str (u_cname b)) (str ""));
       ("note", js_or (opt_str (u_note b)) (str ""));
       ("total", js_or (opt_str (u_total b)) (str "0.00"));
       ("paymentMethod", js_or (opt_str (u_paymentMethod b)) (str ""));
       ("uploadedAt", js_or (opt_str (u_timestamp b))
                        (str (Date_toISOString e)));
       ("cartItems", Some (JArr minimal))] in
  match f with
  | Some f =>
      set_prop (set_prop meta "receiptUrl" (str (file_path f)))
        "cloudinaryId" (str (file_filename f))
  | None => meta
  end.

Definition post_upload (e : env) (b : upload_body) (f : option file)
  : M response :=
  let cartItems := parse_cartItems (u_cartItems b) in
  minimal <- lift (minimalCartItems cartItems) ;;
  let meta := receiptMeta e b f minimal in
  stored <- ensureJsonExists "receipts" (JArr []) ;;
  receipts <- lift (as_array stored) ;;
  saveJsonToCloudinary "receipts" (JArr (meta :: receipts)) ;;;
  ret (Response 200
         (JObj [("message", JStr "Receipt saved"); ("receipt", meta)])).

End Receipts.

Definition get_receipts : M response :=
  receipts <- ensureJsonExists "receipts" (JArr []) ;;
  ret (Response 200 receipts).

Definition orderId_is (orderId : string) (r : json) : completion bool :=
  match get_prop r "orderId" with
  | Normal v => Normal (strict_eq_str v orderId)
  | Throws e => Throws e
  end.

Definition delete_receipt (orderId : string) : M response :=
  stored <- ensureJsonExists "receipts" (JArr []) ;;
  receipts <- lift (as_array stored) ;;
  index <- lift (findIndex (orderId_is orderId) receipts) ;;
  match index with
  | None => ret (not_found "Receipt")
  | Some i =>
      saveJsonToCloudinary "receipts" (JArr (delete i receipts)) ;;;
      ret (Response 200
             (JObj [("message", JStr "Receipt deleted");
                    ("orderId", JStr orderId)]))
  end.

(** *** Products *)

(** The text fields of the multipart body of [POST] and [PUT /products]. *)
Record product_body : Type := ProductBody {
  p_name : option string;
  p_price : option string;
  p_description : option string;
}.

Definition get_products : M response :=
  products <- ensureJsonExists "products" (JArr []) ;;
  ret (Response 200 products).

Definition post_product (e : env) (b : product_body) (f : option file)
  : M response :=
  match f with
  | None => ret (Response 400 (JObj [("error", JStr "Image is required")]))
  | Some f =>
      stored <- ensureJsonExists "products" (JArr []) ;;
      products <- lift (as_array stored) ;;
      let newProduct :=
        object_literal
          [("id", Some (JNum (Date_now e)));
           ("name", opt_str (p_name b));
           ("price", opt_str (p_price b));
           ("description", opt_str (p_description b));
           ("imageUrl", str (file_path f));
           ("cloudinaryId", str (file_filename f))] in
      saveJsonToCloudinary "products" (JArr (products ++ [newProduct])) ;;;
      ret (Response 200
             (JObj [("message", JStr "Product added");
                    ("product", newProduct)]))
  end.

(** The [if (req.file) { ... }] block of the update. *)
Definition replace_image (e : env) (p : json) (f : option file) : M json :=
  match f with
  | Some f =>
      old <- lift (get_prop p "cloudinaryId") ;;
      match old with
      | Some cid => if truthy cid then uploader_destroy e cid else ret tt
      | None => ret tt
      end ;;;
      ret (set_prop (set_prop p "imageUrl" (str (file_path f)))
             "cloudinaryId" (str (file_filename f)))
  | None => ret p
  end.

(** [p.k = field || p.k]. *)
Definition retain (p : json) (k : string) (field : option string)
  : completion json :=
  match get_prop p k with
  | Normal old => Normal (set_prop p k (js_or (opt_str field) old))
  | Throws e => Throws e
  end.

Definition put_product (e : env) (id : string) (b : product_body)
    (f : option file) : M response :=
  stored <- ensureJsonExists "products" (JArr []) ;;
  products <- lift (as_array stored) ;;
  index <- lift (findIndex (id_is (parseInt id 0)) products) ;;
  match index with
  | None => ret (not_found "Product")
  | Some i =>
      p0 <- lift (element products i) ;;
      p1 <- replace_image e p0 f ;;
      p2 <- lift (retain p1 "name" (p_name b)) ;;
      p3 <- lift (retain p2 "price" (p_price b)) ;;
      p4 <- lift (retain p3 "description" (p_description b)) ;;
      saveJsonToCloudinary "products" (JArr (<[i := p4]> products)) ;;;
      ret (Response 200
             (JObj [("message", JStr "Product updated"); ("product", p4)]))
  end.

Definition delete_product (e : env) (id : string) : M response :=
  stored <- ensureJsonExists "products" (JArr []) ;;
  products <- lift (as_array stored) ;;
  index <- lift (findIndex (id_is (parseInt id 0)) products) ;;
  match index with
  | None => ret (not_found "Product")
  | Some i =>
      product <- lift (element products i) ;;
      cid <- lift (get_prop product "cloudinaryId") ;;
      match cid with
      | Some c => if truthy c then uploader_destroy e c else ret tt
      | None => ret tt
      end ;;;
      saveJsonToCloudinary "products" (JArr (delete i products)) ;;;
      ret (Response 200 (JObj [("message", JStr "Product deleted")]))
  end.

(** *** Vocabulary for statements about the store *)

(** The string that [field || d] is, for a text field of the body. *)
Definition or_default (field : option string) (d : string) : string :=
  match field with
  | Some s => if String.eqb s "" then d else s
  | None => d
  end.

(** The full public id of the document [name]. *)
Definition doc_id (name : string) : string := "bstore_data/" +:+ name.

(** The document [name] is stored and holds the sequence [l]. *)
Definition stored (w : world) (name : string) (l : list json) : Prop :=
  docs w !! doc_id name = Some (JArr l).

(** The sequence the handlers work on: the stored one, or the empty default
    when the document is absent. *)
Definition collection (w : world) (name : string) (l : list json) : Prop :=
  stored w name l \/ (docs w !! doc_id name = None /\ l = []).

(** The blob delete that [DELETE /products/:id] makes for the product [p]
    is rejected by Cloudinary. *)
Definition blob_delete_rejected (e : env) (p : json) : bool :=
  match get_prop p "cloudinaryId" with
  | Normal (Some c) => truthy c && destroy_rejects e c
  | _ => false
  end.

(** The blob delete that [DELETE /products/:id] makes for [p], if any. *)
Definition blob_delete_call (p : json) : list event :=
  match get_prop p "cloudinaryId" with
  | Normal (Some c) => if truthy c then [Destroy c] else []
  | _ => []
  end.

(** The two collections are sequences wherever they are stored. *)
Definition well_formed (w : world) : Prop :=
  (exists l, collection w "products" l) /\ (exists l, collection w "receipts" l).

(** A computation that keeps the collections well formed, however it
    ends. *)
Definition preserves {A} (c : M A) : Prop :=
  forall w, well_formed w -> well_formed (snd (c w)).

Definition is_upload (ev : event) : bool :=
  match ev with
  | Upload _ _ => true
  | Destroy _ => false
  end.

(** Number of writes to the document store among the calls [t]. *)
Definition uploads (t : list event) : nat :=
  length (List.filter is_upload t).

End Cloud.

(** ** The variant that keeps [products.json] on the local disk *)

Module Hybrid.
Import Js Effects.

(** What [fs.readFileSync(productsPath, "utf8")] can find. *)
Inductive file_content : Type :=
  | Missing
  | EmptyText
  | JsonText (v : json).

(** The calls to Cloudinary and the lines written to the console. *)
Inductive event : Type :=
  | LogAttempt (public_id : string)
  | Destroy (public_id : string)
  | LogResult
  | LogError (err : exn).

Record world : Type := World {
  products_json : file_content;
  trace : list event;
}.

Record env : Type := Env {
  destroy_rejects : string -> bool;
}.

Definition M : Type -> Type := Effects.M world.

Definition emit (ev : event) : M unit :=
  fun w =>
    (Normal tt, {| products_json := products_json w; trace := trace w ++ [ev] |}).

Definition uploader_destroy (e : env) (public_id : string) : M unit :=
  emit (Destroy public_id) ;;;
  if destroy_rejects e public_id
  then lift (Throws (ApiError "destroy failed"))
  else ret tt.

(** [raw ? JSON.parse(raw) : []] on what [readFileSync] returned. *)
Definition read_products : M json :=
  fun w =>
    match products_json w with
    | Missing => (Throws (SystemError "ENOENT"), w)
    | EmptyText => (Normal (JArr []), w)
    | JsonText v => (Normal v, w)
    end.

Definition write_products (v : json) : M unit :=
  fun w => (Normal tt, {| products_json := JsonText v; trace := trace w |}).

(** [product.cloudinaryId || ""], on which [replace] is then called: only a
    string has that method. *)
Definition originalId (cid : jsval) : completion string :=
  match js_or cid (Some (JStr "")) with
  | Some (JStr s) => Normal s
  | _ => Throws (TypeError "originalId.replace is not a function")
  end.

(** The id handed to [destroy]: extension stripped, products folder put in
    front when the id names no folder. *)
Definition publicId (original : string) : string :=
  let stripped := strip_extension original in
  if negb (includes_slash stripped)
  then "bstore_products/" +:+ stripped
  else stripped.

Definition delete_product (e : env) (id : string) : M response :=
  let n := parseInt id 10 in
  stored <- read_products ;;
  products <- lift (as_array stored) ;;
  index <- lift (findIndex (id_is n) products) ;;
  match index with
  | None =>
      ret (Response 404 (JObj [("error", JStr "Product not found")]))
  | Some i =>
      product <- lift (element products i) ;;
      cid <- lift (get_prop product "cloudinaryId") ;;
      original <- lift (originalId cid) ;;
      let pid := publicId original in
      emit (LogAttempt pid) ;;;
      try_catch (uploader_destroy e pid ;;; emit LogResult)
        (fun err => emit (LogError err)) ;;;
      write_products (JArr (delete i products)) ;;;
      ret (Response 200 (JObj [("message", JStr "Product deleted")]))
  end.

End Hybrid.

(** ** The other routes of the variant with [products.json] on disk *)

Module HybridRoutes.
Import Js Effects.

(** The handlers of this module other than [DELETE /products/:id] are
    synchronous: when one throws, the answer is left to Express. *)

(** The three files next to the server, and the calls and console lines
    of [DELETE /products/:id]. *)
Record world : Type := World {
  settings_json : Hybrid.file_content;
  receipts_json : Hybrid.file_content;
  products_json : Hybrid.file_content;
  trace : list Hybrid.event;
}.

Definition M : Type -> Type := Effects.M world.

(** [JSON.parse(fs.readFileSync(path))]: reading a file that is not there
    throws, and so does parsing an empty text. *)
Definition parse_file (c : Hybrid.file_content) : completion json :=
  match c with
  | Hybrid.Missing => Throws (SystemError "ENOENT")
  | Hybrid.EmptyText => Throws SyntaxError
  | Hybrid.JsonText v => Normal v
  end.

(** [fs.existsSync(path)]. *)
Definition existsSync (c : Hybrid.file_content) : bool :=
  match c with
  | Hybrid.Missing => false
  | _ => true
  end.

Definition write_settings (v : json) : M unit :=
  fun w =>
    (Normal tt,
     {| settings_json := Hybrid.JsonText v; receipts_json := receipts_json w;
        products_json := products_json w; trace := trace w |}).

Definition write_receipts (v : json) : M unit :=
  fun w =>
    (Normal tt,
     {| settings_json := settings_json w; receipts_json := Hybrid.JsonText v;
        products_json := products_json w; trace := trace w |}).

Definition write_products (v : json) : M unit :=
  fun w =>
    (Normal tt,
     {| settings_json := settings_json w; receipts_json := receipts_json w;
        products_json := Hybrid.JsonText v; trace := trace w |}).

Definition read (file : world -> Hybrid.file_content)
  : M Hybrid.file_content :=
  fun w => (Normal (file w), w).

(** What the module does when it is loaded: the settings and the products
    files are created with their defaults when they are not there. *)
Definition startup : M unit :=
  settings <- read settings_json ;;
  (if negb (existsSync settings)
   then write_settings (JObj [("qrCodeUrl", JStr "")])
   else ret tt) ;;;
  products <- read products_json ;;
  if negb (existsSync products) then write_products (JArr []) else ret tt.

Definition post_upload_qrcode (f : option Cloud.file) : M response :=
  match f with
  | None =>
      ret (Response 400 (JObj [("error", JStr "No QR code image uploaded")]))
  | Some f =>
      write_settings
        (JObj [("qrCodeUrl", JStr (Cloud.file_path f));
               ("cloudinaryId", JStr (Cloud.file_filename f))]) ;;;
      ret (Response 200
             (JObj [("success", JBool true);
                    ("message", JStr "QR Code updated");
                    ("qrCodeUrl", JStr (Cloud.file_path f));
                    ("cloudinaryId", JStr (Cloud.file_filename f))]))
  end.

Definition get_settings : M response :=
  file <- read settings_json ;;
  if negb (existsSync file)
  then ret (Response 200 (JObj [("qrCodeUrl", JStr "")]))
  else
    settings <- lift (parse_file file) ;;
    ret (Response 200 settings).

Section Receipts.

(** [JSON.parse] of the runtime, for the [cartItems] field. *)
Variable JSON_parse : string -> option json.

(** The clock of the request is all that is read of [e]. *)
Definition post_upload (e : Cloud.env) (b : Cloud.upload_body)
    (f : option Cloud.file) : M response :=
  let cartItems := Cloud.parse_cartItems JSON_parse (Cloud.u_cartItems b) in
  minimal <- lift (Cloud.minimalCartItems cartItems) ;;
  let meta := Cloud.receiptMeta e b f minimal in
  file <- read receipts_json ;;
  parsed <- (if existsSync file then lift (parse_file file)
             else ret (JArr [])) ;;
  existing <- lift (as_array parsed) ;;
  write_receipts (JArr (meta :: existing)) ;;;
  ret (Response 200
         (JObj [("message", JStr "Receipt data saved"); ("receipt", meta)])).

End Receipts.

(** The answer of [GET /receipts] for a given content of the file. *)
Definition receipts_answer (file : Hybrid.file_content) : response :=
  if negb (existsSync file) then Response 200 (JArr [])
  else
    match parse_file file with
    | Normal receipts => Response 200 receipts
    | Throws _ =>
        Response 500 (JObj [("error", JStr "Failed to parse receipts.json")])
    end.

Definition get_receipts : M response :=
  file <- read receipts_json ;;
  ret (receipts_answer file).

Definition get_products : M response :=
  file <- read products_json ;;
  products <- lift (parse_file file) ;;
  ret (Response 200 products).

Definition post_product (e : Cloud.env) (b : Cloud.product_body)
    (f : option Cloud.file) : M response :=
  match f with
  | None =>
      ret (Response 400 (JObj [("error", JStr "Image file is required")]))
  | Some f =>
      file <- read products_json ;;
      parsed <- lift (parse_file file) ;;
      let newProduct :=
        object_literal
          [("id", Some (JNum (Cloud.Date_now e)));
           ("name", Cloud.opt_str (Cloud.p_name b));
           ("price", Cloud.opt_str (Cloud.p_price b));
           ("description", Cloud.opt_str (Cloud.p_description b));
           ("imageUrl", Cloud.str (Cloud.file_path f));
           ("cloudinaryId", Cloud.str (Cloud.file_filename f))] in
      products <- lift (as_array parsed) ;;
      write_products (JArr (products ++ [newProduct])) ;;;
      ret (Response 200
             (JObj [("message", JStr "Product added");
                    ("product", newProduct)]))
  end.

(** [DELETE /products/:id], which reads and writes the products file
    only. *)
Definition delete_product (e : Hybrid.env) (id : string) : M response :=
  fun w =>
    let '(r, h) :=
      Hybrid.delete_product e id
        (Hybrid.World (products_json w) (trace w)) in
    (r,
     {| settings_json := settings_json w; receipts_json := receipts_json w;
        products_json := Hybrid.products_json h; trace := Hybrid.trace h |}).

End HybridRoutes.

(** ** The oldest variant: receipts with their files on the local disk *)

Module Disk.
Import Js Effects.

(** [req.file], as multer's disk storage fills it. *)
Record file : Type := File {
  filename : string;
  originalname : string;
  mimetype : string;
  size : Z;
}.

(** The text fields of the multipart body of [POST /upload]. *)
Record upload_body : Type := UploadBody {
  u_total : option string;
  u_timestamp : option string;
  u_note : option string;
  u_cname : option string;
}.

Record world : Type := World {
  receipts_json : Hybrid.file_content;
}.

Definition M : Type -> Type := Effects.M world.

(** The name under which an upload is kept:
    [`${Date.now()}-${file.originalname}`]. *)
Definition uniqueName (now : Z) (original : string) : string :=
  pretty now +:+ "-" +:+ original.

(** [allowedTypes.includes(file.mimetype)] of the file filter. *)
Definition allowed_type (mime : string) : bool :=
  String.eqb mime "image/jpeg" || String.eqb mime "image/png"
  || String.eqb mime "image/gif".

(** The default of [total], two code units before [0.00]. *)
Definition default_total : string :=
  String "195" (String "167" "0.00").

Definition receiptMeta (iso_now : string) (b : upload_body) (f : file) : json :=
  object_literal
    [("filename", Some (JStr (filename f)));
     ("originalname", Some (JStr (originalname f)));
     ("filepath", Some (JStr ("/uploads/" +:+ filename f)));
     ("mimetype", Some (JStr (mimetype f)));
     ("size", Some (JNum (size f)));
     ("uploadedAt", js_or (Cloud.opt_str (u_timestamp b)) (Cloud.str iso_now));
     ("total", js_or (Cloud.opt_str (u_total b)) (Cloud.str default_total));
     ("note", js_or (Cloud.opt_str (u_note b)) (Cloud.str ""));
     ("cname", js_or (Cloud.opt_str (u_cname b)) (Cloud.str ""))].

Definition read_receipts : M Hybrid.file_content :=
  fun w => (Normal (receipts_json w), w).

Definition write_receipts (v : json) : M unit :=
  fun _ => (Normal tt, {| receipts_json := Hybrid.JsonText v |}).

Definition post_upload (iso_now : string) (b : upload_body) (f : option file)
  : M response :=
  match f with
  | None => ret (Response 400 (JObj [("error", JStr "No file uploaded")]))
  | Some f =>
      let meta := receiptMeta iso_now b f in
      file <- read_receipts ;;
      parsed <- (if HybridRoutes.existsSync file
                 then lift (HybridRoutes.parse_file file)
                 else ret (JArr [])) ;;
      existing <- lift (as_array parsed) ;;
      write_receipts (JArr (existing ++ [meta])) ;;;
      ret (Response 200
             (JObj [("message",
                     JStr "Receipt uploaded and saved with metadata");
                    ("receipt", meta)]))
  end.

Definition get_receipts : M response :=
  file <- read_receipts ;;
  ret (HybridRoutes.receipts_answer file).

End Disk.

(** ** The document store while an upload is under way

    [Cloud] takes an upload to have succeeded when [saveJsonToCloudinary]
    returns.  The source does not wait for it: the [await] in
    [saveJsonToCloudinary] is given the stream that
    [upload_stream(...).end(buffer)] returns, which is no promise, and the
    answer of Cloudinary goes to a callback that writes a line to the
    console.  In this module an upload is in flight from the call until
    Cloudinary answers it, and the answer may be an error.  A lookup is
    answered from what Cloudinary holds when it is made. *)

Module InFlight.
Import Js Effects.

(** The lines the helper functions write to the console. *)
Inductive line : Type :=
  | UploadError (public_id : string)
  | Saved (public_id : string)
  | NotFound (publicId : string).

(** The raw documents Cloudinary holds, the uploads it has not answered yet,
    oldest first, and the console. *)
Record world : Type := World {
  docs : gmap string json;
  in_flight : list (string * json);
  console : list line;
}.

Definition M : Type -> Type := Effects.M world.

(** [cloudinary.uploader.upload_stream(options, callback).end(buffer)]: the
    transfer is started and the stream is returned. *)
Definition upload_stream_end (folder public_id : string) (content : json)
  : M unit :=
  fun w =>
    let full := folder +:+ "/" +:+ public_id in
    (Normal tt,
     {| docs := docs w;
        in_flight := in_flight w ++ [(full, content)];
        console := console w |}).

(** Awaiting the stream waits for nothing. *)
Definition saveJsonToCloudinary (publicId : string) (jsonData : json) : M unit :=
  upload_stream_end "bstore_data" publicId jsonData.

Definition fetch_raw (full_id : string) : M json :=
  fun w =>
    match docs w !! full_id with
    | Some v => (Normal v, w)
    | None => (Throws (ApiError "Resource not found"), w)
    end.

Definition console_write (l : line) : M unit :=
  fun w =>
    (Normal tt,
     {| docs := docs w; in_flight := in_flight w; console := console w ++ [l] |}).

Definition loadJsonFromCloudinary (publicId : string) : M json :=
  try_catch (fetch_raw ("bstore_data/" +:+ publicId))
    (fun _ => console_write (NotFound publicId) ;;; ret JNull).

Definition ensureJsonExists (publicId : string) (defaultValue : json) : M json :=
  data <- loadJsonFromCloudinary publicId ;;
  if negb (truthy data) then
    saveJsonToCloudinary publicId defaultValue ;;;
    ret defaultValue
  else ret data.

(** Cloudinary answers the oldest upload in flight and the callback given
    to [upload_stream] runs: the object is stored (over the one of the same
    id, [overwrite: true]) and a line says so, or the error is written to
    the console and nothing else happens. *)
Definition upload_answered (ok : bool) (w : world) : world :=
  match in_flight w with
  | [] => w
  | (full, content) :: rest =>
      if ok then
        {| docs := <[full := content]> (docs w);
           in_flight := rest;
           console := console w ++ [Saved full] |}
      else
        {| docs := docs w;
           in_flight := rest;
           console := console w ++ [UploadError full] |}
  end.

End InFlight.

(** ** Vocabulary for the other routes *)

Module Words.
Import Js Cloud.

(** The first property named [k] among the fields of an object literal that
    hold a value. *)
Fixpoint first_defined (k : string) (fields : list (string * jsval)) : jsval :=
  match fields with
  | [] => None
  | (k', v) :: rest =>
      match v with
      | Some j => if String.eqb k k' then Some j else first_defined k rest
      | None => first_defined k rest
      end
  end.

(** The product after the [if (req.file)] block of the update. *)
Definition with_image (p : json) (f : option file) : json :=
  match f with
  | Some f =>
      set_prop (set_prop p "imageUrl" (str (file_path f)))
        "cloudinaryId" (str (file_filename f))
  | None => p
  end.

(** The product after [p.k = field || p.k]. *)
Definition with_field (p : json) (k : string) (field : option string) : json :=
  match retain p k field with
  | Normal q => q
  | Throws _ => p
  end.

(** The product that [PUT /products/:id] saves in the place of [p]. *)
Definition updated (p : json) (b : product_body) (f : option file) : json :=
  with_field
    (with_field (with_field (with_image p f) "name" (p_name b))
       "price" (p_price b))
    "description" (p_description b).

(** The blob delete that the update makes for [p] is rejected. *)
Definition image_delete_rejected (e : env) (p : json) (f : option file)
  : bool :=
  match f with
  | Some _ => blob_delete_rejected e p
  | None => false
  end.

(** The blob delete that the update makes for [p], if any. *)
Definition image_delete_call (p : json) (f : option file) : list event :=
  match f with
  | Some _ => blob_delete_call p
  | None => []
  end.

(** The product that [POST /products] builds. *)
Definition newProduct (e : env) (b : product_body) (f : file) : json :=
  object_literal
    [("id", Some (JNum (Date_now e)));
     ("name", opt_str (p_name b));
     ("price", opt_str (p_price b));
     ("description", opt_str (p_description b));
     ("imageUrl", str (file_path f));
     ("cloudinaryId", str (file_filename f))].

(** The keys a cart item keeps. *)
Definition cart_key (k : string) : bool :=
  String.eqb k "id" || String.eqb k "name" || String.eqb k "price"
  || String.eqb k "quantity".

(** What the receipt keeps of a cart item: an object with the item's [id],
    [name], [price] and [quantity] and no other property; of an item that
    is not an object, which has none of the four, the empty object. *)
Definition kept_of (item q : json) : Prop :=
  (exists ps, q = JObj ps) /\
  (forall k, get_prop q k = if cart_key k then get_prop item k else Normal None) /\
  ((forall ps, item <> JObj ps) -> q = JObj []).

(** The keys an update can write. *)
Definition update_key (k : string) : bool :=
  String.eqb k "imageUrl" || String.eqb k "cloudinaryId"
  || String.eqb k "name" || String.eqb k "price"
  || String.eqb k "description".

End Words.

(** ** Sample data *)

Module Samples.
Import Js.

Definition tee : json :=
  JObj [("id", JNum 1); ("name", JStr "Tee"); ("price", JStr "9.99");
        ("description", JStr "Cotton");
        ("imageUrl", JStr "https://res.cloudinary.com/demo/1.jpg");
        ("cloudinaryId", JStr "bstore_products/1")].

(** A product whose stored asset id has an extension and no folder. *)
Definition cap : json :=
  JObj [("id", JNum 123); ("name", JStr "Cap"); ("price", JStr "15.00");
        ("description", JStr "Wool");
        ("imageUrl", JStr "https://res.cloudinary.com/demo/1700000000000.jpg");
        ("cloudinaryId", JStr "1700000000000.jpg")].

(** A second product with the id of [cap]. *)
Definition cap_again : json :=
  JObj [("id", JNum 123); ("name", JStr "Cap (copy)");
        ("cloudinaryId", JStr "bstore_products/3")].

Definition order1 : json :=
  JObj [("orderId", JStr "ORD1"); ("cname", JStr "Ann"); ("note", JStr "");
        ("total", JStr "9.99"); ("paymentMethod", JStr "cash");
        ("uploadedAt", JStr "2024-01-01T00:00:00.000Z");
        ("cartItems", JArr [])].

Definition products : list json := [tee; cap; cap_again].

Definition shop : Cloud.world :=
  Cloud.World
    (<[Cloud.doc_id "products" := JArr products]>
       (<[Cloud.doc_id "receipts" := JArr [order1]]> ∅))
    [].

Definition empty_store : Cloud.world := Cloud.World ∅ [].

(** Cloudinary answers every [destroy]. *)
Definition calm : Cloud.env :=
  Cloud.Env 1700000000000 "2024-01-02T00:00:00.000Z" (fun _ => false).

(** Cloudinary rejects every [destroy]. *)
Definition stormy : Cloud.env :=
  Cloud.Env 1700000000000 "2024-01-02T00:00:00.000Z" (fun _ => true).

(** A stand-in for [JSON.parse] that knows two texts only. *)
Definition parse_two (s : string) : option json :=
  if String.eqb s "[]" then Some (JArr [])
  else if String.eqb s "[{}]" then Some (JArr [JObj []])
  else None.

(** The body of a create that carries an order id and a cart text. *)
Definition order_body (orderId : string) (cart : option string)
  : Cloud.upload_body :=
  Cloud.UploadBody None None None None (Some orderId) None cart.

Definition disk : Hybrid.world :=
  Hybrid.World (Hybrid.JsonText (JArr products)) [].

Definition calm_disk : Hybrid.env := Hybrid.Env (fun _ => false).
Definition stormy_disk : Hybrid.env := Hybrid.Env (fun _ => true).

End Samples.

(** ** More sample data *)

Module Fixtures.
Import Js.

(** An uploaded product image. *)
Definition photo : Cloud.file :=
  Cloud.File "https://res.cloudinary.com/demo/bstore_products/1700000000000.jpg"
    "bstore_products/1700000000000".

Definition hat_body : Cloud.product_body :=
  Cloud.ProductBody (Some "Hat") (Some "20.00") None.

Definition scarf_body : Cloud.product_body :=
  Cloud.ProductBody (Some "Scarf") None (Some "Long").

(** A stand-in for [JSON.parse] that knows a few texts. *)
Definition parse_few (s : string) : option json :=
  if String.eqb s "[7,[]]" then Some (JArr [JNum 7; JArr []])
  else if String.eqb s "[{}]" then Some (JArr [JObj []])
  else if String.eqb s "{}" then Some (JObj [])
  else if String.eqb s "[null]" then Some (JArr [JNull])
  else None.

(** The three files of the disk variant, the settings file missing. *)
Definition files : HybridRoutes.world :=
  HybridRoutes.World Hybrid.Missing
    (Hybrid.JsonText (JArr [Samples.order1]))
    (Hybrid.JsonText (JArr Samples.products)) [].

(** The same disk with an empty receipts file. *)
Definition files_corrupt : HybridRoutes.world :=
  HybridRoutes.World Hybrid.Missing Hybrid.EmptyText
    (Hybrid.JsonText (JArr Samples.products)) [].

(** A product whose asset id is a number. *)
Definition odd : json :=
  JObj [("id", JNum 9); ("cloudinaryId", JNum 17)].

(** A product without an asset id. *)
Definition bare : json := JObj [("id", JNum 8); ("name", JStr "Pin")].

Definition odd_disk : Hybrid.world :=
  Hybrid.World (Hybrid.JsonText (JArr [bare; odd])) [].

(** An upload of the oldest variant and the receipts it finds. *)
Definition scan : Disk.file :=
  Disk.File "1700000000000-scan.png" "scan.png" "image/png" 2048.

Definition no_fields : Disk.upload_body := Disk.UploadBody None None None None.

Definition oldest : Disk.world := Disk.World Hybrid.Missing.

(** Receipts of three orders, the second one uploaded twice. *)
Definition order2 : json :=
  JObj [("orderId", JStr "ORD2"); ("cname", JStr "Bob"); ("note", JStr "");
        ("total", JStr "15.00"); ("paymentMethod", JStr "card");
        ("uploadedAt", JStr "2024-01-03T00:00:00.000Z");
        ("cartItems", JArr [])].

Definition order3 : json :=
  JObj [("orderId", JStr "ORD3"); ("cname", JStr "Cy"); ("note", JStr "");
        ("total", JStr "24.99"); ("paymentMethod", JStr "cash");
        ("uploadedAt", JStr "2024-01-04T00:00:00.000Z");
        ("cartItems", JArr [])].

Definition order2_again : json :=
  JObj [("orderId", JStr "ORD2"); ("cname", JStr "Bob");
        ("note", JStr "sent twice"); ("total", JStr "15.00");
        ("paymentMethod", JStr "card");
        ("uploadedAt", JStr "2024-01-02T00:00:00.000Z");
        ("cartItems", JArr [])].

Definition ledger : Cloud.world :=
  Cloud.World
    (<[Cloud.doc_id "receipts" :=
         JArr [Samples.order1; order2; order3; order2_again]]>
       (<[Cloud.doc_id "products" := JArr Samples.products]> ∅))
    [].

(** A cart whose first item has a property the receipt does not keep and
    whose second item is not an object, and its JSON text. *)
Definition basket : list json :=
  [JObj [("id", JNum 1); ("name", JStr "Tee"); ("price", JStr "9.99");
         ("quantity", JNum 2); ("sku", JStr "T-1")];
   JNum 7].

Definition quoted (s : string) : string :=
  String "034" (s +:+ String "034" "").

Definition basket_text : string :=
  "[{" +:+ quoted "id" +:+ ":1," +:+ quoted "name" +:+ ":" +:+ quoted "Tee"
  +:+ "," +:+ quoted "price" +:+ ":" +:+ quoted "9.99" +:+ ","
  +:+ quoted "quantity" +:+ ":2," +:+ quoted "sku" +:+ ":" +:+ quoted "T-1"
  +:+ "},7]".

(** A stand-in for [JSON.parse] that knows the text of [basket]. *)
Definition parse_basket (s : string) : option json :=
  if String.eqb s basket_text then Some (JArr basket) else None.

End Fixtures.

(** * Running a computation step by step *)

Module EffectsFacts.
Import Js Effects.

Section WithState.
Context {W : Type}.

Lemma bind_run {A B} (c : M W A) (k : A -> M W B) w a w' :
  c w = (Normal a, w') -> bind c k w = k a w'.
Proof. intros H. unfold bind. now rewrite H. Qed.

Lemma bind_throw {A B} (c : M W A) (k : A -> M W B) w e w' :
  c w = (Throws e, w') -> bind c k w = (Throws e, w').
Proof. intros H. unfold bind. now rewrite H. Qed.

Lemma bind_lift {A B} (a : A) (k : A -> M W B) w :
  bind (lift (Normal a)) k w = k a w.
Proof. reflexivity. Qed.

Lemma bind_ret {A B} (a : A) (k : A -> M W B) w :
  bind (ret a) k w = k a w.
Proof. reflexivity. Qed.

(** A [try] block whose body throws runs the handler; one whose body
    returns is the body. *)
Lemma try_catch_run {A} (c : M W A) (h : exn -> M W A) w :
  try_catch c h w =
  match c w with
  | (Normal a, w') => (Normal a, w')
  | (Throws e, w') => h e w'
  end.
Proof. reflexivity. Qed.

End WithState.

(** *** Searching a collection *)

Lemma findIndex_none f (l : list json) :
  Forall (fun x => f x = Normal false) l -> findIndex f l = Normal None.
Proof.
  induction 1 as [|x l Hx _ IH]; simpl; [reflexivity |].
  now rewrite Hx, IH.
Qed.

Lemma findIndex_first f (l1 l2 : list json) p :
  Forall (fun x => f x = Normal false) l1 ->
  f p = Normal true ->
  findIndex f (l1 ++ p :: l2) = Normal (Some (length l1)).
Proof.
  intros Hl1 Hp. induction Hl1 as [|x l Hx _ IH]; simpl.
  - now rewrite Hp.
  - now rewrite Hx, IH.
Qed.

(** What [findIndex] returns is the position of the first element on which
    the callback is true. *)
Lemma findIndex_some f (l : list json) i :
  findIndex f l = Normal (Some i) ->
  exists l1 p l2,
    l = (l1 ++ p :: l2)%list /\ length l1 = i /\
    Forall (fun x => f x = Normal false) l1 /\ f p = Normal true.
Proof.
  revert i. induction l as [|x l IH]; simpl; intros i; [discriminate |].
  destruct (f x) as [[|]|] eqn:Hx; try discriminate.
  - intros [= <-]. exists [], x, l. auto.
  - destruct (findIndex f l) as [[j|]|] eqn:Hf; try discriminate.
    intros [= <-]. destruct (IH j eq_refl) as (l1 & p & l2 & -> & <- & H1 & H2).
    exists (x :: l1), p, l2. repeat split; auto.
Qed.

End EffectsFacts.

(** ** Facts about numbers as doubles *)

Module DoubleFacts.
Import Js.

Lemma round_magnitude_small a : a < 2 ^ 53 -> round_magnitude a = a.
Proof.
  intros H. unfold round_magnitude.
  destruct (Z.ltb_spec a (2 ^ 53)); [reflexivity | lia].
Qed.

(** Up to [2^53] in magnitude an integer is its own double. *)
Lemma to_double_small z : Z.abs z <= 2 ^ 53 -> to_double z = z.
Proof.
  intros H. unfold to_double.
  destruct (Z.eq_dec (Z.abs z) (2 ^ 53)) as [E | NE].
  - rewrite E. assert (R : round_magnitude (2 ^ 53) = 2 ^ 53) by now vm_compute.
    rewrite R, <- E, Z.mul_comm. apply Z.abs_sgn.
  - rewrite round_magnitude_small by lia. rewrite Z.mul_comm. apply Z.abs_sgn.
Qed.

Lemma round_magnitude_pos a : 0 < a -> 0 < round_magnitude a.
Proof.
  intros Ha. unfold round_magnitude.
  destruct (Z.ltb_spec a (2 ^ 53)) as [Hs | Hb]; [exact Ha |].
  cbv zeta.
  match goal with |- 0 < (if ?c then _ else _) => destruct c end;
    [reflexivity |].
  assert (0 <= Z.log2 a - 52).
  { assert (53 <= Z.log2 a) by (apply Z.log2_le_pow2; lia). lia. }
  assert (0 < 2 ^ (Z.log2 a - 52)) by (apply Z.pow_pos_nonneg; lia).
  assert (0 < a / 2 ^ (Z.log2 a - 52)).
  { apply Z.div_str_pos. split; [lia|].
    pose proof (Z.log2_spec a Ha) as [Hl _].
    assert (2 ^ (Z.log2 a - 52) <= 2 ^ Z.log2 a) by (apply Z.pow_le_mono_r; lia).
    lia. }
  destruct (_ || _); nia.
Qed.

Lemma to_double_opp z : to_double (- z) = - to_double z.
Proof. unfold to_double. rewrite Z.sgn_opp, Z.abs_opp. lia. Qed.

(** A 53-bit significand times a power of two is a double. *)
Lemma round_magnitude_scaled q e :
  1 <= e -> 2 ^ 52 <= q <= 2 ^ 53 -> q * 2 ^ e < 2 ^ 1024 ->
  round_magnitude (q * 2 ^ e) = q * 2 ^ e.
Proof.
  intros He Hq Hfin.
  assert (Hpe : 0 < 2 ^ e) by (apply Z.pow_pos_nonneg; lia).
  assert (Hhalf : 0 < 2 ^ (e - 1)) by (apply Z.pow_pos_nonneg; lia).
  unfold round_magnitude.
  destruct (Z.ltb_spec (q * 2 ^ e) (2 ^ 53)) as [Hx | _]; [nia |].
  cbv zeta.
  destruct (Z.eq_dec q (2 ^ 53)) as [-> | Hne].
  - assert (El : Z.log2 (2 ^ 53 * 2 ^ e) = 53 + e).
    { rewrite <- Z.pow_add_r by lia. apply Z.log2_pow2. lia. }
    rewrite El. replace (53 + e - 52) with (e + 1) by lia.
    assert (Epow : 2 ^ (e + 1) = 2 * 2 ^ e)
      by (rewrite Z.pow_add_r by lia; lia).
    assert (Ediv : 2 ^ 53 * 2 ^ e / 2 ^ (e + 1) = 2 ^ 52).
    { rewrite Epow.
      replace (2 ^ 53 * 2 ^ e) with (2 ^ 52 * (2 * 2 ^ e)) by lia.
      apply Z.div_mul. lia. }
    assert (Emod : (2 ^ 53 * 2 ^ e) mod 2 ^ (e + 1) = 0).
    { rewrite Epow.
      replace (2 ^ 53 * 2 ^ e) with (2 ^ 52 * (2 * 2 ^ e)) by lia.
      apply Z.mod_mul. lia. }
    rewrite Ediv, Emod. replace (e + 1 - 1) with e by lia.
    destruct (Z.ltb_spec (2 ^ e) 0) as [|_]; [lia |].
    destruct (Z.eqb_spec 0 (2 ^ e)) as [|_]; [lia |].
    cbn [orb andb]. rewrite Epow.
    replace (2 ^ 52 * (2 * 2 ^ e)) with (2 ^ 53 * 2 ^ e) by lia.
    destruct (Z.leb_spec (2 ^ 1024) (2 ^ 53 * 2 ^ e)); [lia | reflexivity].
  - assert (El : Z.log2 (q * 2 ^ e) = 52 + e).
    { rewrite Z.log2_mul_pow2 by lia.
      rewrite (Z.log2_unique q 52); [lia | lia |].
      change (Z.succ 52) with 53. lia. }
    rewrite El. replace (52 + e - 52) with e by lia.
    rewrite Z.div_mul, Z.mod_mul by lia.
    destruct (Z.ltb_spec (2 ^ (e - 1)) 0) as [|_]; [lia |].
    destruct (Z.eqb_spec 0 (2 ^ (e - 1))) as [|_]; [lia |].
    cbn [orb andb].
    destruct (Z.leb_spec (2 ^ 1024) (q * 2 ^ e)); [lia | reflexivity].
Qed.

(** What [round_magnitude] returns: the integer itself when it is small,
    the stand-in of [Infinity], or a 53-bit significand times a power of
    two. *)
Lemma round_magnitude_shape a :
  0 <= a ->
  round_magnitude a = a /\ a < 2 ^ 53 \/
  round_magnitude a = 2 ^ 1024 \/
  exists q e, 1 <= e /\ 2 ^ 52 <= q <= 2 ^ 53 /\ q * 2 ^ e < 2 ^ 1024 /\
              round_magnitude a = q * 2 ^ e.
Proof.
  intros Ha. unfold round_magnitude.
  destruct (Z.ltb_spec a (2 ^ 53)) as [Hs | Hb]; [now left |].
  right. cbv zeta.
  match goal with
  | |- (if ?c then _ else _) = _ \/ _ => destruct c eqn:Hfin
  end; [now left |].
  right. apply Z.leb_gt in Hfin.
  set (e := Z.log2 a - 52) in *.
  assert (HL : 53 <= Z.log2 a) by (apply Z.log2_le_pow2; lia).
  assert (He : 1 <= e) by (unfold e; lia).
  assert (Hpe : 0 < 2 ^ e) by (apply Z.pow_pos_nonneg; lia).
  destruct (Z.log2_spec a ltac:(lia)) as [Hlo Hhi].
  assert (E1 : 2 ^ Z.log2 a = 2 ^ 52 * 2 ^ e).
  { rewrite <- Z.pow_add_r by lia. f_equal. unfold e. lia. }
  assert (E2 : 2 ^ Z.succ (Z.log2 a) = 2 ^ 53 * 2 ^ e).
  { rewrite <- Z.pow_add_r by lia. f_equal. unfold e. lia. }
  set (q := a / 2 ^ e) in *.
  assert (Hq : 2 ^ 52 <= q < 2 ^ 53).
  { unfold q. split.
    - apply Z.div_le_lower_bound; lia.
    - apply Z.div_lt_upper_bound; lia. }
  match goal with
  | |- exists _ _, _ /\ _ /\ _ /\ ?q' * _ = _ => exists q', e
  end.
  repeat split; try lia; destruct (_ || _); lia.
Qed.

Lemma round_magnitude_idem a :
  0 <= a -> round_magnitude (round_magnitude a) = round_magnitude a.
Proof.
  intros Ha.
  destruct (round_magnitude_shape a Ha)
    as [[E _] | [-> | (q & e & He & Hq & Hfin & ->)]].
  - now rewrite !E.
  - now vm_compute.
  - now apply round_magnitude_scaled.
Qed.

Lemma to_double_idem z : to_double (to_double z) = to_double z.
Proof.
  unfold to_double.
  destruct (Z.eq_dec z 0) as [-> | Hz]; [reflexivity |].
  pose proof (round_magnitude_pos (Z.abs z) ltac:(lia)) as Hp.
  assert (Hs : Z.sgn (Z.sgn z * round_magnitude (Z.abs z)) = Z.sgn z).
  { rewrite Z.sgn_mul, Z.sgn_sgn. rewrite (Z.sgn_pos _ Hp). lia. }
  assert (Ha : Z.abs (Z.sgn z * round_magnitude (Z.abs z)) =
               round_magnitude (Z.abs z)).
  { rewrite Z.abs_mul, (Z.abs_eq (round_magnitude _)) by lia.
    destruct z; [contradiction | |]; cbn [Z.sgn Z.abs]; lia. }
  rewrite Hs, Ha, round_magnitude_idem by lia. reflexivity.
Qed.

(** Rounding at work: above [2^53] only every second integer is a double,
    above [2^54] every fourth; a tie goes to the even significand; the
    largest double is [2^1024 - 2^971], and half a step above it the result
    is [Infinity]. *)
Lemma to_double_examples :
  to_double (2 ^ 53 + 1) = 2 ^ 53 /\
  to_double (2 ^ 53 + 2) = 2 ^ 53 + 2 /\
  to_double (2 ^ 53 + 3) = 2 ^ 53 + 4 /\
  to_double (- (2 ^ 53 + 3)) = - (2 ^ 53 + 4) /\
  to_double (2 ^ 54 + 5) = 2 ^ 54 + 4 /\
  to_double (2 ^ 54 + 6) = 2 ^ 54 + 8 /\
  to_double (2 ^ 1024 - 2 ^ 971) = 2 ^ 1024 - 2 ^ 971 /\
  to_double (2 ^ 1024 - 2 ^ 970 - 1) = 2 ^ 1024 - 2 ^ 971 /\
  to_double (2 ^ 1024 - 2 ^ 970) = 2 ^ 1024 /\
  to_double (10 ^ 400) = 2 ^ 1024.
Proof. vm_compute. repeat split. Qed.

End DoubleFacts.

(** * Properties of the Cloudinary variant *)

Module CloudFacts.
Import Js Effects Cloud Samples EffectsFacts DoubleFacts.

Lemma upload_id name : "bstore_data" +:+ "/" +:+ name = doc_id name.
Proof. reflexivity. Qed.

Lemma save_run name v w :
  saveJsonToCloudinary name v w =
  (Normal tt, World (<[doc_id name := v]> (docs w)) (trace w ++ [Upload (doc_id name) v])).
Proof. reflexivity. Qed.

Lemma load_run name w :
  loadJsonFromCloudinary name w = (Normal (default JNull (docs w !! doc_id name)), w).
Proof.
  unfold loadJsonFromCloudinary, try_catch, fetch_raw. fold (doc_id name).
  destruct (docs w !! doc_id name); reflexivity.
Qed.

Lemma ensure_run name d w :
  ensureJsonExists name d w =
  let data := default JNull (docs w !! doc_id name) in
  if truthy data then (Normal data, w)
  else (Normal d, World (<[doc_id name := d]> (docs w)) (trace w ++ [Upload (doc_id name) d])).
Proof.
  unfold ensureJsonExists, bind. rewrite load_run. cbv zeta.
  destruct (truthy _); reflexivity.
Qed.


(** [ensureJsonExists] always returns, and writes at most once. *)
(** After [ensureJsonExists] with a truthy default the document is there and
    truthy, and it is what the call returned. *)
Lemma ensure_establishes name d w v w' :
  truthy d = true ->
  ensureJsonExists name d w = (Normal v, w') ->
  docs w' !! doc_id name = Some v /\ truthy v = true.
Proof.
  intros Hd. rewrite ensure_run. cbv zeta.
  destruct (docs w !! doc_id name) as [x|] eqn:Hx; simpl.
  - destruct (truthy x) eqn:Ht; intros [= <- <-]; simpl.
    + now rewrite Hx.
    + now rewrite lookup_insert_eq.
  - intros [= <- <-]. simpl. now rewrite lookup_insert_eq.
Qed.




(** *** Running the handlers on a stored collection *)

Lemma ensure_stored w name l d :
  stored w name l -> ensureJsonExists name d w = (Normal (JArr l), w).
Proof. unfold stored. intros H. rewrite ensure_run, H. reflexivity. Qed.

Lemma ensure_absent w name d :
  docs w !! doc_id name = None ->
  ensureJsonExists name d w =
  (Normal d,
   World (<[doc_id name := d]> (docs w)) (trace w ++ [Upload (doc_id name) d])).
Proof. intros H. rewrite ensure_run, H. reflexivity. Qed.

Lemma delete_receipt_unknown orderId w l :
  stored w "receipts" l ->
  Forall (fun r => orderId_is orderId r = Normal false) l ->
  delete_receipt orderId w = (Normal (not_found "Receipt"), w).
Proof.
  intros Hst Hno. unfold delete_receipt.
  rewrite (bind_run _ _ _ _ _ (ensure_stored _ _ _ _ Hst)). cbn [as_array].
  now rewrite bind_lift, (findIndex_none _ _ Hno), bind_lift.
Qed.

Lemma put_product_unknown e id b f w l :
  stored w "products" l ->
  Forall (fun p => id_is (parseInt id 0) p = Normal false) l ->
  put_product e id b f w = (Normal (not_found "Product"), w).
Proof.
  intros Hst Hno. unfold put_product.
  rewrite (bind_run _ _ _ _ _ (ensure_stored _ _ _ _ Hst)). cbn [as_array].
  now rewrite bind_lift, (findIndex_none _ _ Hno), bind_lift.
Qed.

Lemma delete_product_unknown e id w l :
  stored w "products" l ->
  Forall (fun p => id_is (parseInt id 0) p = Normal false) l ->
  delete_product e id w = (Normal (not_found "Product"), w).
Proof.
  intros Hst Hno. unfold delete_product.
  rewrite (bind_run _ _ _ _ _ (ensure_stored _ _ _ _ Hst)). cbn [as_array].
  now rewrite bind_lift, (findIndex_none _ _ Hno), bind_lift.
Qed.

(** C5, as stated, fails on a store that does not hold the collection yet:
    the not-found answer is given, but [ensureJsonExists] has saved the empty
    default first. *)
Lemma C5_counterexample :
  let w0 := World ∅ [] in
  let r := delete_receipt "ORD1" w0 in
  fst r = Normal (not_found "Receipt") /\
  docs w0 !! doc_id "receipts" = None /\
  docs (snd r) !! doc_id "receipts" = Some (JArr []) /\
  trace (snd r) = [Upload (doc_id "receipts") (JArr [])].
Proof. vm_compute. auto. Qed.

(** C5 (amended): when the collection is stored, [PUT /products/:id] and
    [DELETE /products/:id] with an id that matches no product, and
    [DELETE /receipts/:orderId] with an orderId that matches no receipt,
    answer not-found and leave the store and the list of calls made exactly
    as they were. *)
Theorem C5_unknown_id_no_change (e : env) (id orderId : string)
    (b : product_body) (f : option file) (w : world) (ps rs : list json) :
  stored w "products" ps ->
  stored w "receipts" rs ->
  Forall (fun p => id_is (parseInt id 0) p = Normal false) ps ->
  Forall (fun r => orderId_is orderId r = Normal false) rs ->
  put_product e id b f w = (Normal (not_found "Product"), w) /\
  delete_product e id w = (Normal (not_found "Product"), w) /\
  delete_receipt orderId w = (Normal (not_found "Receipt"), w).
Proof.
  intros Hps Hrs Hid Hord. split; [| split].
  - eapply put_product_unknown; eassumption.
  - eapply delete_product_unknown; eassumption.
  - eapply delete_receipt_unknown; eassumption.
Qed.

Lemma C5_unknown_id_no_change_witness :
  put_product calm "7" (ProductBody (Some "Hat") None None) None shop =
    (Normal (not_found "Product"), shop) /\
  delete_product calm "7" shop = (Normal (not_found "Product"), shop) /\
  delete_receipt "ORD9" shop = (Normal (not_found "Receipt"), shop).
Proof.
  apply (C5_unknown_id_no_change calm "7" "ORD9"
           (ProductBody (Some "Hat") None None) None shop products [order1]).
  - vm_compute. reflexivity.
  - vm_compute. reflexivity.
  - repeat constructor.
  - repeat constructor.
Defined.

(** On a store that does not hold the collection yet, the not-found answer
    comes after the save of the empty default by [ensureJsonExists]. *)
Lemma delete_product_unknown_absent e id w :
  docs w !! doc_id "products" = None ->
  delete_product e id w =
  (Normal (not_found "Product"),
   World (<[doc_id "products" := JArr []]> (docs w))
     (trace w ++ [Upload (doc_id "products") (JArr [])])).
Proof.
  intros Habs. unfold delete_product.
  now rewrite (bind_run _ _ _ _ _ (ensure_absent _ _ _ Habs)).
Qed.

(** *** Receipts *)

Lemma js_or_str field d :
  js_or (opt_str field) (str d) = str (or_default field d).
Proof.
  destruct field as [s|]; [| reflexivity].
  unfold js_or, or_default. simpl. now destruct (String.eqb s "").
Qed.

Lemma receiptMeta_cartItems e b f m :
  get_prop (receiptMeta e b f m) "cartItems" = Normal (Some (JArr m)).
Proof.
  unfold receiptMeta. rewrite !js_or_str. destruct f; reflexivity.
Qed.



Lemma stored_after_save name v w :
  docs (snd (saveJsonToCloudinary name v w)) !! doc_id name = Some v.
Proof. rewrite save_run. simpl. apply lookup_insert_eq. Qed.

(** A create answers with the record it built and leaves it in front of
    the records that were there. *)
Lemma post_upload_prepends P e b f w l m :
  collection w "receipts" l ->
  minimalCartItems (parse_cartItems P (u_cartItems b)) = Normal m ->
  let meta := receiptMeta e b f m in
  fst (post_upload P e b f w) =
    Normal (Response 200
              (JObj [("message", JStr "Receipt saved"); ("receipt", meta)])) /\
  stored (snd (post_upload P e b f w)) "receipts" (meta :: l).
Proof.
  intros Hc Hm meta.
  assert (Hrun : exists w1,
             ensureJsonExists "receipts" (JArr []) w = (Normal (JArr l), w1)).
  { destruct Hc as [Hst | [Habs ->]].
    - rewrite (ensure_stored _ _ _ _ Hst). eauto.
    - rewrite (ensure_absent _ _ _ Habs). eauto. }
  destruct Hrun as [w1 Hens].
  unfold post_upload. rewrite Hm, bind_lift, (bind_run _ _ _ _ _ Hens).
  cbn [as_array]. rewrite bind_lift, (bind_run _ _ _ _ _ (save_run _ _ _)).
  split; [reflexivity |]. unfold stored, ret. cbn [snd docs].
  apply lookup_insert_eq.
Qed.


(** C3: when the [cartItems] field of [POST /upload] is a string that
    [JSON.parse] rejects, the request is answered with the saved receipt,
    whose [cartItems] is the empty sequence, and that receipt is stored in
    front of the receipts that were there. *)
Theorem C3_malformed_cart_is_empty (P : string -> option json) (e : env)
    (b : upload_body) (f : option file) (w : world) (l : list json)
    (s : string) :
  collection w "receipts" l ->
  u_cartItems b = Some s ->
  P s = None ->
  exists meta,
    fst (post_upload P e b f w) =
      Normal (Response 200
                (JObj [("message", JStr "Receipt saved"); ("receipt", meta)])) /\
    get_prop meta "cartItems" = Normal (Some (JArr [])) /\
    stored (snd (post_upload P e b f w)) "receipts" (meta :: l).
Proof.
  intros Hc Hs HP.
  assert (Hm : minimalCartItems (parse_cartItems P (u_cartItems b)) = Normal []).
  { unfold parse_cartItems. rewrite Hs. simpl. now rewrite HP. }
  destruct (post_upload_prepends P e b f w l [] Hc Hm) as [Hr Hst].
  exists (receiptMeta e b f []). split; [exact Hr |]. split; [| exact Hst].
  apply receiptMeta_cartItems.
Qed.

Lemma C3_malformed_cart_is_empty_witness :
  exists meta,
    fst (post_upload parse_two calm (order_body "ORD7" (Some "{oops")) None shop) =
      Normal (Response 200
                (JObj [("message", JStr "Receipt saved"); ("receipt", meta)])) /\
    get_prop meta "cartItems" = Normal (Some (JArr [])) /\
    stored
      (snd (post_upload parse_two calm (order_body "ORD7" (Some "{oops")) None
              shop))
      "receipts" [meta; order1].
Proof.
  apply (C3_malformed_cart_is_empty parse_two calm
           (order_body "ORD7" (Some "{oops")) None shop [order1] "{oops").
  - left. vm_compute. reflexivity.
  - reflexivity.
  - reflexivity.
Defined.



(** *** Properties of objects *)

Lemma assign_assoc_same k v ps :
  assoc k ps = Some v -> assign_assoc k v ps = ps.
Proof.
  induction ps as [|[k' v'] ps IH]; simpl; [discriminate |].
  destruct (String.eqb k k') eqn:Hk.
  - apply String.eqb_eq in Hk. now intros [= ->]; subst.
  - intros H. now rewrite IH.
Qed.

Lemma remove_assoc_absent k ps : assoc k ps = None -> remove_assoc k ps = ps.
Proof.
  induction ps as [|[k' v'] ps IH]; simpl; [reflexivity |].
  destruct (String.eqb k k'); [discriminate |].
  intros H. now rewrite IH.
Qed.

Lemma assoc_assign_same k v ps : assoc k (assign_assoc k v ps) = Some v.
Proof.
  induction ps as [|[k' v'] ps IH]; simpl.
  - now rewrite String.eqb_refl.
  - destruct (String.eqb k k') eqn:Hk; simpl.
    + now rewrite String.eqb_refl.
    + now rewrite Hk.
Qed.

Lemma assoc_assign_other k k' v ps :
  k' <> k -> assoc k' (assign_assoc k v ps) = assoc k' ps.
Proof.
  intros Hne. apply String.eqb_neq in Hne.
  induction ps as [|[k0 v0] ps IH]; simpl.
  - now rewrite Hne.
  - destruct (String.eqb k k0) eqn:Hk; simpl.
    + apply String.eqb_eq in Hk. subst k0. now rewrite Hne.
    + now rewrite IH.
Qed.

(** Writing back what a property holds leaves the object as it is. *)
Lemma set_prop_same ps k : set_prop (JObj ps) k (assoc k ps) = JObj ps.
Proof.
  simpl. destruct (assoc k ps) eqn:Hk.
  - now rewrite assign_assoc_same.
  - now rewrite remove_assoc_absent.
Qed.

Lemma get_set_prop_same ps k v :
  get_prop (set_prop (JObj ps) k (Some v)) k = Normal (Some v).
Proof. simpl. now rewrite assoc_assign_same. Qed.

Lemma get_set_prop_other ps k k' v :
  k' <> k ->
  get_prop (set_prop (JObj ps) k (Some v)) k' = get_prop (JObj ps) k'.
Proof. intros Hne. simpl. now rewrite assoc_assign_other. Qed.

(** Only an object can have an [id] that is strictly equal to a number. *)
Lemma matched_is_object n p :
  id_is n p = Normal true -> exists ps, p = JObj ps.
Proof.
  unfold id_is. destruct p; simpl; try discriminate. eauto.
Qed.

(** *** Products: update *)

Lemma retain_absent ps k : retain (JObj ps) k None = Normal (JObj ps).
Proof.
  unfold retain. cbn [get_prop opt_str fmap option_fmap option_map].
  unfold js_or. cbn [truthy_v]. now rewrite set_prop_same.
Qed.

Lemma retain_empty ps k : retain (JObj ps) k (Some "") = Normal (JObj ps).
Proof.
  unfold retain. cbn [get_prop]. unfold js_or. simpl truthy_v.
  now rewrite set_prop_same.
Qed.

Lemma retain_given ps k s :
  s <> "" -> retain (JObj ps) k (Some s) = Normal (set_prop (JObj ps) k (str s)).
Proof.
  intros Hne. apply String.eqb_neq in Hne.
  unfold retain. cbn [get_prop]. unfold js_or. simpl truthy_v.
  now rewrite Hne.
Qed.

(** What [PUT /products/:id] does when only [price] comes with the
    request. *)
Lemma put_product_price_only e id price w l1 p l2 :
  stored w "products" (l1 ++ p :: l2) ->
  Forall (fun q => id_is (parseInt id 0) q = Normal false) l1 ->
  id_is (parseInt id 0) p = Normal true ->
  let p' := match retain p "price" (Some price) with
            | Normal q => q
            | Throws _ => p
            end in
  put_product e id (ProductBody None (Some price) None) None w =
  (Normal (Response 200
             (JObj [("message", JStr "Product updated"); ("product", p')])),
   World (<[doc_id "products" := JArr (l1 ++ p' :: l2)]> (docs w))
     (trace w ++ [Upload (doc_id "products") (JArr (l1 ++ p' :: l2))])).
Proof.
  intros Hst Hl1 Hp. destruct (matched_is_object _ _ Hp) as [ps ->].
  cbv zeta. unfold put_product.
  rewrite (bind_run _ _ _ _ _ (ensure_stored _ _ _ _ Hst)). cbn [as_array].
  rewrite bind_lift, (findIndex_first _ _ _ _ Hl1 Hp), bind_lift.
  unfold element. rewrite list_lookup_middle by reflexivity.
  rewrite bind_lift. cbn [replace_image]. rewrite bind_ret.
  cbn [p_name p_price p_description].
  rewrite retain_absent, bind_lift.
  destruct (String.eqb price "") eqn:Hprice.
  - apply String.eqb_eq in Hprice. subst price.
    rewrite retain_empty, bind_lift, retain_absent, bind_lift.
    rewrite (bind_run _ _ _ _ _ (save_run _ _ _)).
    rewrite insert_app_r_alt by lia. rewrite Nat.sub_diag. reflexivity.
  - apply String.eqb_neq in Hprice.
    rewrite (retain_given _ _ _ Hprice), bind_lift.
    unfold set_prop at 1 2 3. cbn [str]. rewrite retain_absent, bind_lift.
    rewrite (bind_run _ _ _ _ _ (save_run _ _ _)).
    rewrite insert_app_r_alt by lia. rewrite Nat.sub_diag. reflexivity.
Qed.

(** C6, as stated, fails twice.  A [price] field that is supplied empty
    leaves the product with the price it had.  And a product is reached by
    its id only when no product before it has the same id: [cap_again] has
    the id 123 of [cap], and [PUT /products/123] with a price updates [cap]
    and leaves [cap_again] without the price. *)
Lemma C6_counterexample :
  (let r := put_product calm "1" (ProductBody None (Some "") None) None shop in
   fst r =
     Normal (Response 200
               (JObj [("message", JStr "Product updated"); ("product", tee)])) /\
   get_prop tee "price" = Normal (Some (JStr "9.99")) /\
   stored (snd r) "products" products) /\
  (let r :=
     put_product calm "123" (ProductBody None (Some "18.00") None) None shop in
   In cap_again products /\
   id_is (parseInt "123" 0) cap_again = Normal true /\
   fst r =
     Normal (Response 200
               (JObj [("message", JStr "Product updated");
                      ("product", set_prop cap "price" (str "18.00"))])) /\
   stored (snd r) "products"
     [tee; set_prop cap "price" (str "18.00"); cap_again] /\
   get_prop cap_again "price" = Normal None).
Proof.
  split.
  - vm_compute. auto.
  - repeat apply conj; try (vm_compute; reflexivity).
    right. right. left. reflexivity.
Qed.

(** C6 (amended): for the product that [PUT /products/:id] resolves the
    path id to, which is the first product of the collection whose [id] is
    the [parseInt] of the path id, a request that supplies only a non-empty
    [price] (no name, no description, no file) sets [price] to it and leaves
    [name], [description], [imageUrl] and [cloudinaryId] of that product as
    they were; every other product, a later one with the same id included,
    stays as it was. *)
Theorem C6_price_only_update (e : env) (id price : string) (w : world)
    (l1 l2 : list json) (p : json) :
  stored w "products" (l1 ++ p :: l2) ->
  Forall (fun q => id_is (parseInt id 0) q = Normal false) l1 ->
  id_is (parseInt id 0) p = Normal true ->
  price <> "" ->
  let r := put_product e id (ProductBody None (Some price) None) None w in
  exists p',
    fst r =
      Normal (Response 200
                (JObj [("message", JStr "Product updated"); ("product", p')])) /\
    stored (snd r) "products" (l1 ++ p' :: l2) /\
    get_prop p' "price" = Normal (Some (JStr price)) /\
    get_prop p' "name" = get_prop p "name" /\
    get_prop p' "description" = get_prop p "description" /\
    get_prop p' "imageUrl" = get_prop p "imageUrl" /\
    get_prop p' "cloudinaryId" = get_prop p "cloudinaryId".
Proof.
  intros Hst Hl1 Hp Hprice r. subst r.
  rewrite (put_product_price_only e id price w l1 p l2 Hst Hl1 Hp).
  destruct (matched_is_object _ _ Hp) as [ps ->].
  rewrite (retain_given _ _ _ Hprice).
  exists (set_prop (JObj ps) "price" (str price)). cbn [fst snd].
  split; [reflexivity |]. split.
  { unfold stored. cbn [docs]. apply lookup_insert_eq. }
  split; [apply get_set_prop_same |].
  repeat split; apply get_set_prop_other; discriminate.
Qed.

Lemma C6_price_only_update_witness :
  exists p',
    fst (put_product calm "123" (ProductBody None (Some "12.50") None) None
           shop) =
      Normal (Response 200
                (JObj [("message", JStr "Product updated"); ("product", p')])) /\
    stored
      (snd (put_product calm "123" (ProductBody None (Some "12.50") None) None
              shop))
      "products" [tee; p'; cap_again] /\
    get_prop p' "price" = Normal (Some (JStr "12.50")) /\
    get_prop p' "name" = Normal (Some (JStr "Cap")) /\
    get_prop p' "description" = Normal (Some (JStr "Wool")) /\
    get_prop p' "cloudinaryId" = Normal (Some (JStr "1700000000000.jpg")).
Proof.
  destruct (C6_price_only_update calm "123" "12.50" shop [tee] [cap_again] cap)
    as (p' & H1 & H2 & H3 & H4 & H5 & _ & H7).
  - vm_compute. reflexivity.
  - repeat constructor.
  - vm_compute. reflexivity.
  - discriminate.
  - exists p'. repeat apply conj; assumption.
Defined.

(** *** Products: delete *)

(** The whole run of [DELETE /products/:id] on a stored collection whose
    first matching record is [p]. *)
Lemma delete_product_run e id w l1 p l2 :
  stored w "products" (l1 ++ p :: l2) ->
  Forall (fun q => id_is (parseInt id 0) q = Normal false) l1 ->
  id_is (parseInt id 0) p = Normal true ->
  delete_product e id w =
  if blob_delete_rejected e p
  then (Throws (ApiError "destroy failed"),
        World (docs w) (trace w ++ blob_delete_call p))
  else (Normal (Response 200 (JObj [("message", JStr "Product deleted")])),
        World (<[doc_id "products" := JArr (l1 ++ l2)]> (docs w))
          ((trace w ++ blob_delete_call p)
           ++ [Upload (doc_id "products") (JArr (l1 ++ l2))])).
Proof.
  intros Hst Hl1 Hp. destruct (matched_is_object _ _ Hp) as [ps ->].
  unfold delete_product.
  rewrite (bind_run _ _ _ _ _ (ensure_stored _ _ _ _ Hst)). cbn [as_array].
  rewrite bind_lift, (findIndex_first _ _ _ _ Hl1 Hp), bind_lift.
  unfold element. rewrite list_lookup_middle by reflexivity.
  rewrite bind_lift. unfold blob_delete_rejected, blob_delete_call.
  cbn [get_prop]. rewrite bind_lift, delete_middle.
  destruct (assoc "cloudinaryId" ps) as [c|].
  - destruct (truthy c); cbn [andb].
    + unfold bind at 1. unfold uploader_destroy.
      destruct (destroy_rejects e c); [reflexivity |].
      now rewrite (bind_run _ _ _ _ _ (save_run _ _ _)).
    + rewrite bind_ret, (bind_run _ _ _ _ _ (save_run _ _ _)).
      destruct w; cbn [docs trace]. now rewrite app_nil_r.
  - rewrite bind_ret, (bind_run _ _ _ _ _ (save_run _ _ _)).
    destruct w; cbn [docs trace]. now rewrite app_nil_r.
Qed.


(** When Cloudinary rejects the blob delete, the handler's promise is
    rejected: nothing is answered, nothing is saved, the record stays. *)
Lemma delete_product_rejected e id w l1 p l2 :
  stored w "products" (l1 ++ p :: l2) ->
  Forall (fun q => id_is (parseInt id 0) q = Normal false) l1 ->
  id_is (parseInt id 0) p = Normal true ->
  blob_delete_rejected e p = true ->
  fst (delete_product e id w) = Throws (ApiError "destroy failed") /\
  docs (snd (delete_product e id w)) = docs w.
Proof.
  intros Hst Hl1 Hp Hrej.
  rewrite (delete_product_run e id w l1 p l2 Hst Hl1 Hp), Hrej. auto.
Qed.

(** The id handed to [destroy] is the stored [cloudinaryId] as it is. *)
Lemma delete_product_destroys_stored_id e id w l1 p l2 c :
  stored w "products" (l1 ++ p :: l2) ->
  Forall (fun q => id_is (parseInt id 0) q = Normal false) l1 ->
  id_is (parseInt id 0) p = Normal true ->
  get_prop p "cloudinaryId" = Normal (Some c) ->
  truthy c = true ->
  exists rest, trace (snd (delete_product e id w)) = (trace w ++ Destroy c :: rest)%list.
Proof.
  intros Hst Hl1 Hp Hc Ht.
  rewrite (delete_product_run e id w l1 p l2 Hst Hl1 Hp).
  unfold blob_delete_call. rewrite Hc, Ht.
  destruct (blob_delete_rejected e p); cbn [snd trace].
  - now exists [].
  - rewrite <- app_assoc. eauto.
Qed.

(** C1: on the store [shop], with Cloudinary rejecting the blob delete,
    [DELETE /products/1] of the Cloudinary variant sends no answer (the
    handler's promise is rejected with the blob error), saves nothing, and
    the product is still stored. *)
Theorem C1_blob_failure_escapes :
  let r := delete_product stormy "1" shop in
  fst r = Throws (ApiError "destroy failed") /\
  stored (snd r) "products" [tee; cap; cap_again] /\
  trace (snd r) = [Destroy (JStr "bstore_products/1")].
Proof. vm_compute. auto. Qed.

(** C2: on the store [shop], [DELETE /products/123] of the Cloudinary
    variant hands the stored id [1700000000000.jpg] to [destroy] as it is,
    where the normalisation of the disk variant gives
    [bstore_products/1700000000000]. *)
Theorem C2_stored_id_not_normalised :
  let r := delete_product calm "123" shop in
  fst r =
    Normal (Response 200 (JObj [("message", JStr "Product deleted")])) /\
  trace (snd r) =
    [Destroy (JStr "1700000000000.jpg");
     Upload (doc_id "products") (JArr [tee; cap_again])] /\
  Hybrid.publicId "1700000000000.jpg" = "bstore_products/1700000000000".
Proof. vm_compute. auto. Qed.

(** C10: on the store [shop], where two products have the id 123, with
    Cloudinary rejecting the blob delete, [DELETE /products/123] of the
    Cloudinary variant removes nothing: the first matching record [cap] is
    still in the stored collection afterwards. *)
Theorem C10_nothing_removed_on_blob_failure :
  let r := delete_product stormy "123" shop in
  fst r = Throws (ApiError "destroy failed") /\
  stored (snd r) "products" [tee; cap; cap_again] /\
  uploads (trace (snd r)) = 0%nat.
Proof. vm_compute. auto. Qed.

(** *** The path id *)

Lemma decimal_digit_char c :
  is_decimal_digit c = true ->
  is_white_space c = false /\ c <> "+"%char /\ c <> "-"%char /\
  radix_digit 10 c = Some (Z.of_N (N_of_ascii c) - 48).
Proof.
  destruct c as [[] [] [] [] [] [] [] []]; vm_compute; intros H;
    try discriminate H; repeat split; discriminate.
Qed.

Lemma not_decimal_digit_char c :
  is_decimal_digit c = false -> radix_digit 10 c = None.
Proof.
  destruct c as [[] [] [] [] [] [] [] []]; vm_compute; intros H;
    try discriminate H; reflexivity.
Qed.

Lemma strip_sign_digit c s :
  is_decimal_digit c = true -> strip_sign (String c s) = (1, String c s).
Proof.
  destruct c as [[] [] [] [] [] [] [] []]; vm_compute; intros H;
    try discriminate H; reflexivity.
Qed.

(** [read_digits] in radix 10 reads exactly the leading decimal digits. *)
Lemma read_digits_decimal s acc :
  read_digits 10 s acc =
  match leading_decimal_prefix s with
  | EmptyString => acc
  | digits => Some (decimal_value digits (default 0 acc))
  end.
Proof.
  revert acc. induction s as [|c s IH]; intros acc; [reflexivity |].
  cbn [read_digits leading_decimal_prefix].
  destruct (is_decimal_digit c) eqn:Hc.
  - destruct (decimal_digit_char c Hc) as (_ & _ & _ & ->).
    rewrite IH. cbn [decimal_value].
    destruct (leading_decimal_prefix s); reflexivity.
  - now rewrite (not_decimal_digit_char c Hc).
Qed.

(** On a path id that starts with a decimal digit, and not with [0x] or
    [0X], [parseInt] is the reading by the leading decimal digits, as a
    double. *)
Lemma parseInt_decimal s :
  id_by_decimal_prefix s <> None ->
  strip_hex_prefix s = None ->
  parseInt s 0 = to_double <$> id_by_decimal_prefix s.
Proof.
  unfold id_by_decimal_prefix. destruct s as [|c s]; [now intros [] |].
  cbn [leading_decimal_prefix].
  destruct (is_decimal_digit c) eqn:Hc; [| now intros []].
  intros _ Hhex. unfold parseInt. cbn [trim_start].
  destruct (decimal_digit_char c Hc) as (-> & _ & _ & Hd).
  rewrite (strip_sign_digit c s Hc), Hhex. cbn [Z.eqb orb].
  rewrite read_digits_decimal. cbn [leading_decimal_prefix]. rewrite Hc.
  cbn [fmap option_fmap option_map default]. f_equal.
  now rewrite Z.mul_1_l.
Qed.

(** A product matches when its [id] is a number equal, as a double, to the
    number looked for. *)
Lemma id_is_matches n p :
  id_is n p = Normal true <->
  exists ps m k,
    p = JObj ps /\ assoc "id" ps = Some (JNum m) /\ n = Some k /\
    to_double m = to_double k.
Proof.
  split.
  - intros H. destruct (matched_is_object _ _ H) as [ps ->].
    unfold id_is in H. cbn [get_prop] in H.
    destruct (assoc "id" ps) as [[| | m | | |]|] eqn:Hid; try discriminate H.
    destruct n as [k|]; [| discriminate H].
    injection H as H. apply Z.eqb_eq in H. eauto 10.
  - intros (ps & m & k & -> & Hid & -> & Heq). unfold id_is. cbn [get_prop].
    rewrite Hid. cbn [strict_eq_num]. now rewrite Heq, Z.eqb_refl.
Qed.

(** *** What [parseInt] reads besides decimal digits *)

Lemma number_fmap_plus (o : option Z) :
  (fun d => to_double (1 * d)) <$> o = to_double <$> o.
Proof. destruct o as [d|]; [| reflexivity]. cbn. now rewrite Z.mul_1_l. Qed.

Lemma number_fmap_minus (o : option Z) :
  (fun d => to_double (-1 * d)) <$> o = Z.opp <$> (to_double <$> o).
Proof.
  destruct o as [d|]; [| reflexivity]. cbn. f_equal.
  replace (-1 * d) with (- d) by lia. apply to_double_opp.
Qed.

(** [parseInt] once the white space is skipped and the sign is taken. *)
Lemma parseInt_body s r sign body :
  strip_sign (trim_start s) = (sign, body) ->
  parseInt s r =
  (fun d => to_double (sign * d)) <$>
    (if (r =? 0) || (r =? 16) then
       match strip_hex_prefix body with
       | Some hex => read_digits 16 hex None
       | None => read_digits (if r =? 0 then 10 else r) body None
       end
     else if (r <? 2) || (36 <? r) then None
     else read_digits r body None).
Proof.
  intros H. unfold parseInt. rewrite H.
  destruct ((r =? 0) || (r =? 16)).
  - now destruct (strip_hex_prefix body).
  - now destruct ((r <? 2) || (36 <? r)).
Qed.

Lemma strip_sign_none c s :
  c <> "+"%char -> c <> "-"%char -> strip_sign (String c s) = (1, String c s).
Proof.
  intros Hp Hm.
  destruct c as [[] [] [] [] [] [] [] []];
    try reflexivity; [now destruct Hm | now destruct Hp].
Qed.

(** Leading white space is skipped. *)
Lemma parseInt_white_space c s :
  is_white_space c = true -> parseInt (String c s) 0 = parseInt s 0.
Proof. intros H. unfold parseInt. cbn [trim_start]. now rewrite H. Qed.

(** One sign is taken: [+] changes nothing, [-] negates. *)
Lemma parseInt_plus c s :
  is_white_space c = false -> c <> "+"%char -> c <> "-"%char ->
  parseInt (String "+" (String c s)) 0 = parseInt (String c s) 0.
Proof.
  intros Hw Hp Hm.
  rewrite (parseInt_body (String "+" (String c s)) 0 1 (String c s))
    by reflexivity.
  rewrite (parseInt_body (String c s) 0 1 (String c s)); [reflexivity |].
  cbn [trim_start]. rewrite Hw. now apply strip_sign_none.
Qed.

Lemma parseInt_minus c s :
  is_white_space c = false -> c <> "+"%char -> c <> "-"%char ->
  parseInt (String "-" (String c s)) 0 = Z.opp <$> parseInt (String c s) 0.
Proof.
  intros Hw Hp Hm.
  rewrite (parseInt_body (String "-" (String c s)) 0 (-1) (String c s))
    by reflexivity.
  rewrite (parseInt_body (String c s) 0 1 (String c s)).
  - now rewrite number_fmap_minus, number_fmap_plus.
  - cbn [trim_start]. rewrite Hw. now apply strip_sign_none.
Qed.

(** After [0x] or [0X] the digits are read in base 16. *)
Lemma parseInt_hex_lower h :
  parseInt (String "0" (String "x" h)) 0 = to_double <$> read_digits 16 h None.
Proof.
  rewrite (parseInt_body _ 0 1 (String "0" (String "x" h))) by reflexivity.
  apply number_fmap_plus.
Qed.

Lemma parseInt_hex_upper h :
  parseInt (String "0" (String "X" h)) 0 = to_double <$> read_digits 16 h None.
Proof.
  rewrite (parseInt_body _ 0 1 (String "0" (String "X" h))) by reflexivity.
  apply number_fmap_plus.
Qed.

Lemma decimal_value_nonneg s acc :
  0 <= acc -> 0 <= decimal_value (leading_decimal_prefix s) acc.
Proof.
  revert acc. induction s as [|c s IH]; intros acc Hacc; [exact Hacc |].
  cbn [leading_decimal_prefix].
  destruct (is_decimal_digit c) eqn:Hc; [| exact Hacc].
  cbn [decimal_value]. apply IH.
  unfold is_decimal_digit in Hc. apply andb_true_iff in Hc as [Hlo _].
  apply Z.leb_le in Hlo. lia.
Qed.

Lemma parseInt_decimal_double s n :
  id_by_decimal_prefix s = Some n ->
  strip_hex_prefix s = None ->
  parseInt s 0 = Some (to_double n).
Proof.
  intros Hn Hhex. rewrite parseInt_decimal; [| now rewrite Hn | exact Hhex].
  now rewrite Hn.
Qed.

(** Up to [2^53] the leading decimal digits are read exactly. *)
Lemma parseInt_decimal_exact s n :
  id_by_decimal_prefix s = Some n ->
  strip_hex_prefix s = None ->
  n <= 2 ^ 53 ->
  parseInt s 0 = Some n.
Proof.
  intros Hn Hhex Hb. rewrite (parseInt_decimal_double s n Hn Hhex).
  f_equal. apply to_double_small.
  assert (0 <= n); [| lia].
  unfold id_by_decimal_prefix in Hn.
  pose proof (decimal_value_nonneg s 0 ltac:(lia)) as Hpos.
  destruct (leading_decimal_prefix s); [discriminate |].
  now injection Hn as <-.
Qed.

(** Nothing is strictly equal to NaN. *)
Lemma id_is_nan p : p <> JNull -> id_is None p = Normal false.
Proof.
  intros Hp. unfold id_is.
  destruct p as [| | | | |ps]; try reflexivity; [contradiction |].
  cbn [get_prop]. now destruct (assoc "id" ps) as [[]|].
Qed.

Lemma ensure_collection w name l :
  collection w name l ->
  exists w1, ensureJsonExists name (JArr []) w = (Normal (JArr l), w1).
Proof.
  intros [Hst | [Habs ->]].
  - rewrite (ensure_stored _ _ _ _ Hst). eauto.
  - rewrite (ensure_absent _ _ _ Habs). eauto.
Qed.

Lemma put_product_nan e id b f w l :
  parseInt id 0 = None ->
  collection w "products" l ->
  Forall (fun p => p <> JNull) l ->
  fst (put_product e id b f w) = Normal (not_found "Product").
Proof.
  intros Hnan Hc Hl. destruct (ensure_collection _ _ _ Hc) as [w1 Hens].
  unfold put_product. rewrite (bind_run _ _ _ _ _ Hens). cbn [as_array].
  rewrite bind_lift, Hnan, findIndex_none; [reflexivity |].
  eapply Forall_impl; [exact Hl |]. intros p Hp. now apply id_is_nan.
Qed.

Lemma delete_product_nan e id w l :
  parseInt id 0 = None ->
  collection w "products" l ->
  Forall (fun p => p <> JNull) l ->
  fst (delete_product e id w) = Normal (not_found "Product").
Proof.
  intros Hnan Hc Hl. destruct (ensure_collection _ _ _ Hc) as [w1 Hens].
  unfold delete_product. rewrite (bind_run _ _ _ _ _ Hens). cbn [as_array].
  rewrite bind_lift, Hnan, findIndex_none; [reflexivity |].
  eapply Forall_impl; [exact Hl |]. intros p Hp. now apply id_is_nan.
Qed.

(** C9, as stated, fails: the path id [+123] has no leading digit and yet
    [DELETE /products/+123] removes the product with id 123; and the path id
    [0x7B], whose leading decimal digits read 0, removes it as well. *)
Lemma C9_counterexample :
  id_by_decimal_prefix "+123" = None /\
  id_by_decimal_prefix "0x7B" = Some 0 /\
  (let r := delete_product calm "+123" shop in
   fst r =
     Normal (Response 200 (JObj [("message", JStr "Product deleted")])) /\
   stored (snd r) "products" [tee; cap_again]) /\
  (let r := delete_product calm "0x7B" shop in
   fst r =
     Normal (Response 200 (JObj [("message", JStr "Product deleted")])) /\
   stored (snd r) "products" [tee; cap_again]).
Proof. vm_compute. auto 10. Qed.

(** C9 (amended): [PUT] and [DELETE /products/:id] depend on the path id
    through [parseInt] only, and a product matches when its [id] is a number
    equal, as a double, to the number [parseInt] returns.  [parseInt] skips
    leading white space, takes one sign, reads hexadecimal digits after [0x]
    or [0X] and decimal digits otherwise, and rounds what it read to a
    double; so on a path id that starts with a decimal digit and not with
    [0x] or [0X] it is the integer of the leading decimal digits, exactly so
    up to [2^53] ([123abc] finds the product with id 123), and a path id on
    which [parseInt] is NaN matches no product and is answered not-found. *)
Theorem C9_id_resolved_by_parseInt :
  (forall e id id' b f w,
     parseInt id 0 = parseInt id' 0 ->
     put_product e id b f w = put_product e id' b f w /\
     delete_product e id w = delete_product e id' w) /\
  (forall n p,
     id_is n p = Normal true <->
     exists ps m k,
       p = JObj ps /\ assoc "id" ps = Some (JNum m) /\ n = Some k /\
       to_double m = to_double k) /\
  (forall c s,
     is_white_space c = true -> parseInt (String c s) 0 = parseInt s 0) /\
  (forall c s,
     is_white_space c = false -> c <> "+"%char -> c <> "-"%char ->
     parseInt (String "+" (String c s)) 0 = parseInt (String c s) 0 /\
     parseInt (String "-" (String c s)) 0 =
       Z.opp <$> parseInt (String c s) 0) /\
  (forall h,
     parseInt (String "0" (String "x" h)) 0 =
       to_double <$> read_digits 16 h None /\
     parseInt (String "0" (String "X" h)) 0 =
       to_double <$> read_digits 16 h None) /\
  (forall s n,
     id_by_decimal_prefix s = Some n ->
     strip_hex_prefix s = None ->
     parseInt s 0 = Some (to_double n) /\
     (n <= 2 ^ 53 -> parseInt s 0 = Some n)) /\
  (parseInt "123abc" 0 = Some 123 /\
   parseInt " 123" 0 = Some 123 /\
   parseInt "+123" 0 = Some 123 /\
   parseInt "-123" 0 = Some (-123) /\
   parseInt "0x7B" 0 = Some 123 /\
   parseInt "9007199254740993" 0 = Some 9007199254740992 /\
   parseInt "abc" 0 = None /\
   parseInt "0x" 0 = None) /\
  (forall e id b f w l,
     parseInt id 0 = None ->
     collection w "products" l ->
     Forall (fun p => p <> JNull) l ->
     fst (put_product e id b f w) = Normal (not_found "Product") /\
     fst (delete_product e id w) = Normal (not_found "Product")).
Proof.
  split; [| split; [| split; [| split; [| split; [| split; [| split]]]]]].
  - intros e id id' b f w H. unfold put_product, delete_product.
    now rewrite H.
  - apply id_is_matches.
  - apply parseInt_white_space.
  - intros c s Hw Hp Hm. split.
    + now apply parseInt_plus.
    + now apply parseInt_minus.
  - intros h. split; [apply parseInt_hex_lower | apply parseInt_hex_upper].
  - intros s n Hn Hhex. split.
    + now apply parseInt_decimal_double.
    + now apply parseInt_decimal_exact.
  - vm_compute. auto 10.
  - intros e id b f w l Hnan Hc Hl. split.
    + eapply put_product_nan; eassumption.
    + eapply delete_product_nan; eassumption.
Qed.

Lemma C9_id_resolved_by_parseInt_witness :
  delete_product calm "0x7B" shop = delete_product calm "123" shop /\
  parseInt " 42" 0 = parseInt "42" 0 /\
  parseInt "+7" 0 = parseInt "7" 0 /\
  parseInt "-7" 0 = Z.opp <$> parseInt "7" 0 /\
  parseInt "42px" 0 = Some 42 /\
  fst (delete_product calm "abc" shop) = Normal (not_found "Product").
Proof.
  destruct C9_id_resolved_by_parseInt
    as (Hsame & _ & Hws & Hsign & _ & Hdec & _ & Hnan).
  split; [| split; [| split; [| split; [| split]]]].
  - exact (proj2 (Hsame calm "0x7B" "123" (ProductBody None None None) None
                    shop eq_refl)).
  - apply (Hws " "%char "42"). reflexivity.
  - apply (Hsign "7"%char ""); [reflexivity | discriminate | discriminate].
  - apply (Hsign "7"%char ""); [reflexivity | discriminate | discriminate].
  - apply (Hdec "42px" 42); [reflexivity | reflexivity | vm_compute; discriminate].
  - apply (Hnan calm "abc" (ProductBody None None None) None shop products).
    + reflexivity.
    + left. vm_compute. reflexivity.
    + repeat constructor; discriminate.
Defined.

(** *** The collections stay sequences *)

Lemma doc_id_inj a b : doc_id a = doc_id b -> a = b.
Proof. unfold doc_id. intros H. now simplify_eq/=. Qed.

Lemma collection_after_insert w name key v t :
  (key = name -> exists l, v = JArr l) ->
  (exists l, collection w name l) ->
  exists l,
    collection (World (<[doc_id key := v]> (docs w)) t) name l.
Proof.
  intros Hv [l Hl]. destruct (decide (key = name)) as [-> | Hne].
  - destruct (Hv eq_refl) as [l' ->]. exists l'. left.
    unfold stored. cbn [docs]. apply lookup_insert_eq.
  - assert (Hk : doc_id key <> doc_id name)
      by (intros H; apply Hne, doc_id_inj, H).
    exists l. unfold collection, stored in *. cbn [docs].
    now rewrite lookup_insert_ne.
Qed.

Lemma preserves_ret {A} (a : A) : preserves (ret a).
Proof. intros w Hw. exact Hw. Qed.

Lemma preserves_lift {A} (c : completion A) : preserves (lift c).
Proof. intros w Hw. exact Hw. Qed.

Lemma preserves_bind {A B} (c : M A) (k : A -> M B) :
  preserves c -> (forall a, preserves (k a)) -> preserves (bind c k).
Proof.
  intros Hc Hk w Hw. unfold bind. specialize (Hc w Hw).
  destruct (c w) as [[a|e] w']; cbn [snd] in *; [apply Hk |]; exact Hc.
Qed.

Lemma preserves_save_sequence name l :
  preserves (saveJsonToCloudinary name (JArr l)).
Proof.
  intros w [Hp Hr]. rewrite save_run. cbn [snd].
  split; apply collection_after_insert; eauto.
Qed.

Lemma preserves_save_settings v : preserves (saveJsonToCloudinary "settings" v).
Proof.
  intros w [Hp Hr]. rewrite save_run. cbn [snd].
  split; apply collection_after_insert; auto; discriminate.
Qed.

Lemma preserves_ensure_sequence name l :
  preserves (ensureJsonExists name (JArr l)).
Proof.
  intros w Hw. rewrite ensure_run. cbv zeta.
  destruct (truthy _); [exact Hw |].
  apply (preserves_save_sequence name l w Hw).
Qed.

Lemma preserves_ensure_settings d : preserves (ensureJsonExists "settings" d).
Proof.
  intros w Hw. rewrite ensure_run. cbv zeta.
  destruct (truthy _); [exact Hw |].
  apply (preserves_save_settings d w Hw).
Qed.

Lemma preserves_destroy e c : preserves (uploader_destroy e c).
Proof.
  intros w Hw. unfold uploader_destroy.
  destruct (destroy_rejects e c); exact Hw.
Qed.

Ltac preserve :=
  repeat first
    [ apply preserves_ret
    | apply preserves_lift
    | apply preserves_save_sequence
    | apply preserves_save_settings
    | apply preserves_ensure_sequence
    | apply preserves_ensure_settings
    | apply preserves_destroy
    | apply preserves_bind; [| intros ?]
    | match goal with
      | |- preserves (match ?x with _ => _ end) => destruct x
      end ].

(** The store with no document is well formed, and every route of the
    Cloudinary variant keeps the store well formed, whether it answers or
    throws. *)
Theorem routes_preserve_well_formed (P : string -> option json) (e : env)
    (id : string) (ub : upload_body) (pb : product_body) (f : option file) :
  well_formed empty_store /\
  preserves (post_upload_qrcode f) /\
  preserves get_settings /\
  preserves (post_upload P e ub f) /\
  preserves get_receipts /\
  preserves (delete_receipt id) /\
  preserves get_products /\
  preserves (post_product e pb f) /\
  preserves (put_product e id pb f) /\
  preserves (delete_product e id).
Proof.
  split.
  { split; exists []; right; split; reflexivity. }
  unfold post_upload_qrcode, get_settings, post_upload, get_receipts,
    delete_receipt, get_products, post_product, put_product, delete_product,
    replace_image.
  repeat apply conj; cbv zeta; preserve.
Qed.

End CloudFacts.

(** * The document store while an upload is under way *)

Module InFlightFacts.
Import Js Effects InFlight.

Lemma save_starts_upload name v w :
  saveJsonToCloudinary name v w =
  (Normal tt,
   World (docs w) (in_flight w ++ [("bstore_data/" +:+ name, v)]) (console w)).
Proof. reflexivity. Qed.

(** What [load] returns depends on the stored documents only. *)
Lemma load_value name w :
  fst (loadJsonFromCloudinary name w) =
  Normal (default JNull (docs w !! ("bstore_data/" +:+ name))).
Proof.
  unfold loadJsonFromCloudinary, try_catch, fetch_raw.
  destruct (docs w !! ("bstore_data/" +:+ name)); reflexivity.
Qed.

(** [load] does not see an upload that is in flight. *)
Lemma load_after_save name v w :
  fst (loadJsonFromCloudinary name (snd (saveJsonToCloudinary name v w))) =
  fst (loadJsonFromCloudinary name w).
Proof. now rewrite !load_value, save_starts_upload. Qed.

(** Once Cloudinary has answered the upload of a save that found no other
    upload in flight, the store is the one [Cloud.saveJsonToCloudinary]
    gives at once. *)
Lemma save_answered name v w :
  in_flight w = [] ->
  upload_answered true (snd (saveJsonToCloudinary name v w)) =
  World (<["bstore_data/" +:+ name := v]> (docs w)) []
    (console w ++ [Saved ("bstore_data/" +:+ name)]).
Proof. intros H. rewrite save_starts_upload. unfold upload_answered. cbn. now rewrite H. Qed.

Lemma save_failed name v w :
  in_flight w = [] ->
  upload_answered false (snd (saveJsonToCloudinary name v w)) =
  World (docs w) [] (console w ++ [UploadError ("bstore_data/" +:+ name)]).
Proof. intros H. rewrite save_starts_upload. unfold upload_answered. cbn. now rewrite H. Qed.

(** C8 fails in the code.  [saveJsonToCloudinary] returns when the upload
    has been started, whatever becomes of it, so for every name, value and
    store the [load] that follows returns what a [load] before the save
    would have returned.  On a store without the document, for every name
    and default, [ensure(name, default)] returns the default,
    [save(name, default)] returns normally, and [load(name)] returns
    [null], not the saved value.  For [products] with the default [[]]:
    when Cloudinary then fails the two uploads, only the console shows it
    and [load] still returns [null]; the saved value is loaded only once
    Cloudinary has answered an upload with success. *)
Theorem C8_load_misses_the_save :
  (forall name v w,
     fst (saveJsonToCloudinary name v w) = Normal tt /\
     docs (snd (saveJsonToCloudinary name v w)) = docs w /\
     fst (loadJsonFromCloudinary name (snd (saveJsonToCloudinary name v w))) =
     fst (loadJsonFromCloudinary name w)) /\
  (forall name d,
     let w0 := World ∅ [] [] in
     let r1 := ensureJsonExists name d w0 in
     let r2 := saveJsonToCloudinary name d (snd r1) in
     let r3 := loadJsonFromCloudinary name (snd r2) in
     fst r1 = Normal d /\ fst r2 = Normal tt /\ fst r3 = Normal JNull /\
     docs (snd r3) = ∅ /\
     in_flight (snd r3) =
       [("bstore_data/" +:+ name, d); ("bstore_data/" +:+ name, d)]) /\
  (let w0 := World ∅ [] [] in
   let r1 := ensureJsonExists "products" (JArr []) w0 in
   let r2 := saveJsonToCloudinary "products" (JArr []) (snd r1) in
   let r3 := loadJsonFromCloudinary "products" (snd r2) in
   let failed := upload_answered false (upload_answered false (snd r3)) in
   let landed := upload_answered true (snd r3) in
   fst r1 = Normal (JArr []) /\
   fst r2 = Normal tt /\
   fst r3 = Normal JNull /\
   in_flight failed = [] /\
   console failed =
     [NotFound "products"; NotFound "products";
      UploadError "bstore_data/products"; UploadError "bstore_data/products"] /\
   fst (loadJsonFromCloudinary "products" failed) = Normal JNull /\
   fst (loadJsonFromCloudinary "products" landed) = Normal (JArr [])).
Proof.
  split; [| split].
  - intros name v w. split; [reflexivity |]. split; [reflexivity |].
    apply load_after_save.
  - intros name d. cbv zeta.
    assert (Hens : ensureJsonExists name d (World ∅ [] []) =
                   (Normal d,
                    World ∅ [("bstore_data/" +:+ name, d)] [NotFound name])).
    { unfold ensureJsonExists, bind, loadJsonFromCloudinary, try_catch,
        fetch_raw. cbn [docs]. rewrite lookup_empty. reflexivity. }
    rewrite Hens. cbn [fst snd]. rewrite save_starts_upload. cbn [fst snd docs in_flight].
    unfold loadJsonFromCloudinary, try_catch, fetch_raw. cbn [docs].
    rewrite lookup_empty. cbn. auto.
  - vm_compute. auto 10.
Qed.

End InFlightFacts.

(** * Properties of the disk variant *)

Module HybridFacts.
Import Js Effects Hybrid Samples EffectsFacts.

(** *** The normalisation of the asset id *)

Lemma span_ext_clean (e rest : list ascii) :
  Forall (fun c => is_slash_or_dot c = false) e ->
  span_ext (e ++ "."%char :: rest) = (e, "."%char :: rest).
Proof.
  induction 1 as [|c e Hc _ IH]; [reflexivity |].
  simpl. now rewrite Hc, IH.
Qed.

Lemma span_ext_all (r : list ascii) :
  Forall (fun c => Ascii.eqb c "." = false) r ->
  forall e rest tail, span_ext r = (e, rest) -> rest <> "."%char :: tail.
Proof.
  induction 1 as [|c r Hc _ IH]; simpl; intros e rest tail.
  - now intros [= <- <-].
  - destruct (is_slash_or_dot c) eqn:Hsd.
    + intros [= <- <-] [= -> _]. discriminate Hc.
    + destruct (span_ext r) as [e' rest'] eqn:Hsp. intros [= <- <-].
      exact (IH e' rest' tail eq_refl).
Qed.

(** A trailing extension (a dot followed by one or more characters none of
    which is a dot or a slash) is cut off. *)
Lemma strip_extension_cuts (base ext : list ascii) :
  ext <> [] ->
  Forall (fun c => is_slash_or_dot c = false) ext ->
  strip_extension (string_of_list_ascii (base ++ "."%char :: ext)) =
  string_of_list_ascii base.
Proof.
  intros Hne Hext. unfold strip_extension.
  rewrite list_ascii_of_string_of_list_ascii, rev_app_distr. simpl rev.
  rewrite <- app_assoc. simpl app.
  rewrite span_ext_clean by (apply Forall_rev; exact Hext).
  destruct (rev ext) eqn:Hrev.
  - apply (f_equal (@rev ascii)) in Hrev. rewrite rev_involutive in Hrev.
    contradiction.
  - now rewrite rev_involutive.
Qed.

(** A string without a dot has no extension to cut. *)
Lemma strip_extension_no_dot (s : string) :
  Forall (fun c => Ascii.eqb c "." = false) (list_ascii_of_string s) ->
  strip_extension s = s.
Proof.
  intros Hs. unfold strip_extension.
  destruct (span_ext (rev (list_ascii_of_string s))) as [e rest] eqn:Hsp.
  pose proof (fun tail => span_ext_all _ (Forall_rev Hs) e rest tail Hsp)
    as H.
  destruct e; [reflexivity |]. destruct rest as [|c rest]; [reflexivity |].
  destruct (Ascii.eqb_spec c ".") as [-> | Hne]; [now destruct (H rest) |].
  destruct c as [[] [] [] [] [] [] [] []]; try reflexivity. now destruct Hne.
Qed.

(** *** [DELETE /products/:id] *)

(** The whole run on a file whose first matching record is [p]: the blob
    delete is attempted with the normalised id, its failure is logged, and
    the record is removed in either case. *)
Lemma disk_delete_product_run e id w l1 p l2 cid original :
  products_json w = JsonText (JArr (l1 ++ p :: l2)) ->
  Forall (fun q => id_is (parseInt id 10) q = Normal false) l1 ->
  id_is (parseInt id 10) p = Normal true ->
  get_prop p "cloudinaryId" = Normal cid ->
  originalId cid = Normal original ->
  delete_product e id w =
  (Normal (Response 200 (JObj [("message", JStr "Product deleted")])),
   World (JsonText (JArr (l1 ++ l2)))
     (trace w
      ++ [LogAttempt (publicId original); Destroy (publicId original)]
      ++ [if destroy_rejects e (publicId original)
          then LogError (ApiError "destroy failed")
          else LogResult])).
Proof.
  intros Hfile Hl1 Hp Hcid Horig. unfold delete_product. cbv zeta.
  assert (Hread : read_products w = (Normal (JArr (l1 ++ p :: l2)), w))
    by (unfold read_products; now rewrite Hfile).
  rewrite (bind_run _ _ _ _ _ Hread). cbn [as_array].
  rewrite bind_lift, (findIndex_first _ _ _ _ Hl1 Hp), bind_lift.
  unfold element. rewrite list_lookup_middle by reflexivity.
  rewrite bind_lift, Hcid, bind_lift, Horig, bind_lift, delete_middle.
  unfold bind, emit, try_catch, uploader_destroy, bind, emit, lift, ret,
    write_products.
  cbn [products_json trace].
  destruct (destroy_rejects e (publicId original)); cbn [trace];
    now rewrite <- !app_assoc.
Qed.

(** The disk variant is lenient: whatever Cloudinary answers to the blob
    delete, the request is answered with the success message, the first
    matching record and only that one is removed, and the id handed to
    [destroy] is the normalised one. *)
Theorem delete_product_is_lenient e id w l1 p l2 cid original :
  products_json w = JsonText (JArr (l1 ++ p :: l2)) ->
  Forall (fun q => id_is (parseInt id 10) q = Normal false) l1 ->
  id_is (parseInt id 10) p = Normal true ->
  get_prop p "cloudinaryId" = Normal cid ->
  originalId cid = Normal original ->
  fst (delete_product e id w) =
    Normal (Response 200 (JObj [("message", JStr "Product deleted")])) /\
  products_json (snd (delete_product e id w)) = JsonText (JArr (l1 ++ l2)) /\
  Destroy (publicId original) ∈ trace (snd (delete_product e id w)).
Proof.
  intros Hfile Hl1 Hp Hcid Horig.
  rewrite (disk_delete_product_run e id w l1 p l2 cid original Hfile Hl1 Hp Hcid Horig).
  cbn [fst snd products_json trace]. repeat split.
  rewrite !elem_of_app. right. left. apply list_elem_of_In. simpl. auto.
Qed.

(** On the sample products, with Cloudinary rejecting the blob delete. *)
Example delete_cap_on_disk :
  let r := delete_product stormy_disk "123" disk in
  fst r =
    Normal (Response 200 (JObj [("message", JStr "Product deleted")])) /\
  products_json (snd r) = JsonText (JArr [tee; cap_again]) /\
  trace (snd r) =
    [LogAttempt "bstore_products/1700000000000";
     Destroy "bstore_products/1700000000000";
     LogError (ApiError "destroy failed")].
Proof. vm_compute. auto. Qed.

End HybridFacts.

(** * Numbers as path ids *)

Module NumberFacts.
Import Js DoubleFacts CloudFacts.

Lemma append_cons x (a b : string) : String x a +:+ b = String x (a +:+ b).
Proof. reflexivity. Qed.

Lemma append_assoc (a b c : string) : (a +:+ b) +:+ c = a +:+ (b +:+ c).
Proof.
  induction a as [|x a IH]; [reflexivity |].
  now rewrite !append_cons, IH.
Qed.

Lemma pretty_N_go_append x s : pretty_N_go x s = pretty_N_go x "" +:+ s.
Proof.
  revert s. induction (N.lt_wf_0 x) as [x _ IH]; intros s.
  destruct (decide (x = 0%N)) as [-> | Hx]; [reflexivity |].
  assert (0 < x)%N as Hpos by lia.
  rewrite (pretty_N_go_step x s Hpos), (pretty_N_go_step x "" Hpos).
  assert (x `div` 10 < x)%N as Hlt by (now apply N.div_lt).
  rewrite (IH _ Hlt (String _ s)), (IH _ Hlt (String _ "")).
  now rewrite append_assoc.
Qed.

Lemma decimal_value_append a b acc :
  decimal_value (a +:+ b) acc = decimal_value b (decimal_value a acc).
Proof.
  revert acc. induction a as [|x a IH]; intros acc; [reflexivity |].
  rewrite append_cons. cbn [decimal_value]. apply IH.
Qed.

Lemma leading_decimal_prefix_append a b :
  leading_decimal_prefix a = a ->
  leading_decimal_prefix (a +:+ b) = a +:+ leading_decimal_prefix b.
Proof.
  induction a as [|x a IH]; [reflexivity |].
  rewrite append_cons. cbn [leading_decimal_prefix].
  destruct (is_decimal_digit x); [| discriminate].
  intros [= H]. now rewrite IH, append_cons.
Qed.

Lemma pretty_N_char_digit d :
  (d < 10)%N ->
  is_decimal_digit (pretty_N_char d) = true /\
  Z.of_N (N_of_ascii (pretty_N_char d)) - 48 = Z.of_N d.
Proof.
  intros H.
  assert (d = 0 \/ d = 1 \/ d = 2 \/ d = 3 \/ d = 4 \/ d = 5 \/ d = 6 \/
          d = 7 \/ d = 8 \/ d = 9)%N as Hd by lia.
  repeat destruct Hd as [-> | Hd]; try subst d; split; reflexivity.
Qed.

(** The digits of a number, as [pretty] writes them, are decimal digits and
    read back as the number. *)
Lemma pretty_N_go_digits x :
  leading_decimal_prefix (pretty_N_go x "") = pretty_N_go x "" /\
  decimal_value (pretty_N_go x "") 0 = Z.of_N x.
Proof.
  induction (N.lt_wf_0 x) as [x _ IH].
  destruct (decide (x = 0%N)) as [-> | Hx]; [split; reflexivity |].
  assert (0 < x)%N as Hpos by lia.
  rewrite (pretty_N_go_step x "" Hpos), pretty_N_go_append.
  destruct (IH (x `div` 10)%N) as [IH1 IH2]; [now apply N.div_lt |].
  destruct (pretty_N_char_digit (x `mod` 10)%N) as [Hc Hv];
    [now apply N.mod_lt |].
  split.
  - rewrite leading_decimal_prefix_append by exact IH1.
    cbn [leading_decimal_prefix]. now rewrite Hc.
  - rewrite decimal_value_append, IH2. cbn [decimal_value]. rewrite Hv.
    rewrite (N.div_mod x 10) at 3 by discriminate. lia.
Qed.

Lemma digits_no_hex_prefix s :
  leading_decimal_prefix s = s -> strip_hex_prefix s = None.
Proof.
  destruct s as [|c [|c2 r]]; [reflexivity | |].
  - intros _. destruct c as [[] [] [] [] [] [] [] []]; reflexivity.
  - cbn [leading_decimal_prefix].
    destruct (is_decimal_digit c); [| discriminate].
    destruct (is_decimal_digit c2) eqn:Hc2; [| discriminate]. intros _.
    destruct c as [[] [] [] [] [] [] [] []]; try reflexivity.
    destruct c2 as [[] [] [] [] [] [] [] []]; try reflexivity;
      discriminate Hc2.
Qed.

(** On a non-empty string of decimal digits, [parseInt] with no radix and
    with radix 10 both give the number the digits write, as a double. *)
Lemma parseInt_digits s :
  s <> "" ->
  leading_decimal_prefix s = s ->
  parseInt s 0 = Some (to_double (decimal_value s 0)) /\
  parseInt s 10 = Some (to_double (decimal_value s 0)).
Proof.
  intros Hne Hs. destruct s as [|c r]; [contradiction |].
  assert (Hid : id_by_decimal_prefix (String c r) =
                Some (decimal_value (String c r) 0)).
  { unfold id_by_decimal_prefix. rewrite Hs. reflexivity. }
  split.
  - rewrite parseInt_decimal; [now rewrite Hid | now rewrite Hid |].
    now apply digits_no_hex_prefix.
  - assert (Hc : is_decimal_digit c = true).
    { cbn [leading_decimal_prefix] in Hs.
      destruct (is_decimal_digit c); [reflexivity | discriminate]. }
    unfold parseInt. cbn [trim_start].
    destruct (decimal_digit_char c Hc) as (-> & _ & _ & _).
    rewrite (strip_sign_digit c r Hc). cbn [Z.eqb Z.ltb Z.compare orb
      Pos.compare Pos.compare_cont Pos.eqb].
    rewrite read_digits_decimal, Hs.
    cbn [fmap option_fmap option_map default]. f_equal.
    now rewrite Z.mul_1_l.
Qed.

Lemma pretty_pos_digits p :
  pretty (Zpos p) <> "" /\
  leading_decimal_prefix (pretty (Zpos p)) = pretty (Zpos p) /\
  decimal_value (pretty (Zpos p)) 0 = Zpos p.
Proof.
  assert (Hp : pretty (Zpos p) = pretty_N_go (N.pos p) "").
  { unfold pretty, pretty_Z, pretty_positive, pretty_N.
    now destruct (decide (N.pos p = 0%N)). }
  rewrite Hp. destruct (pretty_N_go_digits (N.pos p)) as [H1 H2].
  repeat split; try assumption.
  intros Hempty. rewrite Hempty in H2. discriminate H2.
Qed.

(** A number written in decimal is read back by [parseInt] as the double
    nearest to it. *)
Lemma parseInt_pretty_id (z : Z) :
  parseInt (pretty z) 0 = Some (to_double z) /\
  parseInt (pretty z) 10 = Some (to_double z).
Proof.
  destruct z as [|p|p].
  - split; reflexivity.
  - destruct (pretty_pos_digits p) as (Hne & Hd & Hv).
    rewrite <- Hv at 2 4. now apply parseInt_digits.
  - destruct (pretty_pos_digits p) as (Hne & Hd & Hv).
    change (pretty (Z.neg p)) with ("-" +:+ pretty (Z.pos p)).
    rewrite append_cons. change ("" +:+ pretty (Z.pos p)) with (pretty (Z.pos p)).
    unfold parseInt.
    change (trim_start (String "-" (pretty (Z.pos p))))
      with (String "-" (pretty (Z.pos p))).
    change (strip_sign (String "-" (pretty (Z.pos p))))
      with (-1, pretty (Z.pos p)).
    cbv beta iota zeta. rewrite (digits_no_hex_prefix _ Hd).
    cbn [Z.eqb Z.ltb Z.compare orb Pos.compare Pos.compare_cont Pos.eqb].
    rewrite read_digits_decimal, Hd.
    destruct (pretty (Z.pos p)) eqn:Hp; [contradiction |].
    cbn [fmap option_fmap option_map default]. rewrite Hv.
    split; reflexivity.
Qed.

(** Looking for the number the path id [pretty z] writes is looking for
    [z]. *)
Lemma id_is_pretty (z : Z) (q : json) :
  id_is (parseInt (pretty z) 0) q = id_is (Some z) q /\
  id_is (parseInt (pretty z) 10) q = id_is (Some z) q.
Proof.
  destruct (parseInt_pretty_id z) as [-> ->]. unfold id_is.
  destruct (get_prop q "id") as [[[| | m | | |]|]|]; cbn [strict_eq_num];
    rewrite ?to_double_idem; split; reflexivity.
Qed.

(** X1: an integer of magnitude at most [2^53], written in decimal and read
    back by [parseInt] with no radix or with radix 10, is the integer
    again.  This is what makes the [id] that [POST /products] takes from
    the clock usable as the path id of [PUT] and [DELETE /products/:id]. *)
Theorem parseInt_pretty (z : Z) :
  Z.abs z <= 2 ^ 53 ->
  parseInt (pretty z) 0 = Some z /\ parseInt (pretty z) 10 = Some z.
Proof.
  intros Hz. destruct (parseInt_pretty_id z) as [-> ->].
  now rewrite (to_double_small z Hz).
Qed.

Lemma parseInt_pretty_witness :
  (parseInt (pretty 1700000000000) 0 = Some 1700000000000 /\
   parseInt (pretty 1700000000000) 10 = Some 1700000000000) /\
  (parseInt (pretty (-42)) 0 = Some (-42) /\
   parseInt (pretty (-42)) 10 = Some (-42)) /\
  (parseInt (pretty (2 ^ 53)) 0 = Some (2 ^ 53) /\
   parseInt (pretty (2 ^ 53)) 10 = Some (2 ^ 53)).
Proof.
  split; [| split].
  - apply (parseInt_pretty 1700000000000). vm_compute. discriminate.
  - apply (parseInt_pretty (-42)). vm_compute. discriminate.
  - apply (parseInt_pretty (2 ^ 53)). vm_compute. discriminate.
Defined.

End NumberFacts.

(** * More properties of the Cloudinary variant *)

Module CloudRoutesFacts.
Import Js Effects Cloud Words Samples Fixtures EffectsFacts CloudFacts
  NumberFacts.

(** *** Object literals *)

Lemma object_literal_get fields k :
  get_prop (object_literal fields) k = Normal (first_defined k fields).
Proof.
  unfold object_literal. cbn [get_prop]. f_equal.
  induction fields as [|[k' [j|]] rest IH]; cbn; [reflexivity | | exact IH].
  destruct (String.eqb k k'); [reflexivity | exact IH].
Qed.


Lemma newProduct_fields e b f :
  get_prop (newProduct e b f) "id" = Normal (Some (JNum (Date_now e))) /\
  get_prop (newProduct e b f) "name" = Normal (opt_str (p_name b)) /\
  get_prop (newProduct e b f) "price" = Normal (opt_str (p_price b)) /\
  get_prop (newProduct e b f) "description" =
    Normal (opt_str (p_description b)) /\
  get_prop (newProduct e b f) "imageUrl" = Normal (Some (JStr (file_path f))) /\
  get_prop (newProduct e b f) "cloudinaryId" =
    Normal (Some (JStr (file_filename f))).
Proof.
  unfold newProduct. rewrite !object_literal_get.
  destruct b as [[n|] [p|] [d|]]; repeat split; reflexivity.
Qed.










(** *** Receipts *)

(** The whole run of [DELETE /receipts/:orderId] on a stored collection
    whose first matching record is [r]. *)
Lemma delete_receipt_run (orderId : string) (w : world)
    (l1 l2 : list json) (r : json) :
  stored w "receipts" (l1 ++ r :: l2) ->
  Forall (fun q => orderId_is orderId q = Normal false) l1 ->
  orderId_is orderId r = Normal true ->
  delete_receipt orderId w =
  (Normal (Response 200
             (JObj [("message", JStr "Receipt deleted");
                    ("orderId", JStr orderId)])),
   World (<[doc_id "receipts" := JArr (l1 ++ l2)]> (docs w))
     (trace w ++ [Upload (doc_id "receipts") (JArr (l1 ++ l2))])).
Proof.
  intros Hst Hl1 Hr. unfold delete_receipt.
  rewrite (bind_run _ _ _ _ _ (ensure_stored _ _ _ _ Hst)). cbn [as_array].
  rewrite bind_lift, (findIndex_first _ _ _ _ Hl1 Hr), bind_lift.
  rewrite delete_middle. now rewrite (bind_run _ _ _ _ _ (save_run _ _ _)).
Qed.

(** X5: [DELETE /receipts/:orderId] removes the first receipt whose
    [orderId] is the path segment, answers with that orderId, and leaves the
    other receipts stored in their order. *)
Theorem delete_receipt_removes_first (orderId : string) (w : world)
    (l1 l2 : list json) (r : json) :
  stored w "receipts" (l1 ++ r :: l2) ->
  Forall (fun q => orderId_is orderId q = Normal false) l1 ->
  orderId_is orderId r = Normal true ->
  delete_receipt orderId w =
  (Normal (Response 200
             (JObj [("message", JStr "Receipt deleted");
                    ("orderId", JStr orderId)])),
   World (<[doc_id "receipts" := JArr (l1 ++ l2)]> (docs w))
     (trace w ++ [Upload (doc_id "receipts") (JArr (l1 ++ l2))])).
Proof. exact (delete_receipt_run orderId w l1 l2 r). Qed.

Lemma delete_receipt_removes_first_witness :
  orderId_is "ORD2" order2_again = Normal true /\
  delete_receipt "ORD2" ledger =
  (Normal (Response 200
             (JObj [("message", JStr "Receipt deleted");
                    ("orderId", JStr "ORD2")])),
   World
     (<[doc_id "receipts" := JArr [order1; order3; order2_again]]>
        (docs ledger))
     [Upload (doc_id "receipts") (JArr [order1; order3; order2_again])]).
Proof.
  split; [reflexivity |].
  apply (delete_receipt_removes_first "ORD2" ledger [order1]
           [order3; order2_again] order2).
  - vm_compute. reflexivity.
  - repeat constructor.
  - reflexivity.
Defined.



(** *** Products: update *)

Lemma assoc_remove_same k ps : assoc k (remove_assoc k ps) = None.
Proof.
  induction ps as [|[k' v] ps IH]; [reflexivity |]. cbn [remove_assoc].
  destruct (String.eqb k k') eqn:Hk; [exact IH |]. cbn [assoc].
  now rewrite Hk.
Qed.

Lemma assoc_remove_other k k' ps :
  k' <> k -> assoc k' (remove_assoc k ps) = assoc k' ps.
Proof.
  intros Hne. apply String.eqb_neq in Hne.
  induction ps as [|[k0 v] ps IH]; [reflexivity |]. cbn [remove_assoc].
  destruct (String.eqb k k0) eqn:Hk; cbn [assoc].
  - apply String.eqb_eq in Hk. subst k0. now rewrite Hne.
  - now rewrite IH.
Qed.

(** Reading a property after an assignment to an object. *)
Lemma get_set_prop ps k v k' :
  get_prop (set_prop (JObj ps) k v) k' =
  if String.eqb k' k then Normal v else get_prop (JObj ps) k'.
Proof.
  destruct (String.eqb k' k) eqn:Hk.
  - apply String.eqb_eq in Hk. subst k'. destruct v as [j|]; cbn.
    + now rewrite assoc_assign_same.
    + now rewrite assoc_remove_same.
  - apply String.eqb_neq in Hk. destruct v as [j|]; cbn.
    + now rewrite assoc_assign_other.
    + now rewrite assoc_remove_other.
Qed.

Lemma set_prop_object ps k v : exists ps', set_prop (JObj ps) k v = JObj ps'.
Proof. destruct v; cbn; eauto. Qed.

Lemma retain_object ps k field :
  retain (JObj ps) k field = Normal (with_field (JObj ps) k field) /\
  (exists ps', with_field (JObj ps) k field = JObj ps') /\
  forall k',
    get_prop (with_field (JObj ps) k field) k' =
    if String.eqb k' k then Normal (js_or (opt_str field) (assoc k ps))
    else get_prop (JObj ps) k'.
Proof.
  unfold with_field, retain. cbn [get_prop]. split; [reflexivity |].
  split; [apply set_prop_object | intros k'; apply get_set_prop].
Qed.

Lemma with_image_object ps f :
  (exists ps', with_image (JObj ps) f = JObj ps') /\
  forall k,
    get_prop (with_image (JObj ps) f) k =
    match f with
    | Some f =>
        if String.eqb k "cloudinaryId" then Normal (str (file_filename f))
        else if String.eqb k "imageUrl" then Normal (str (file_path f))
        else get_prop (JObj ps) k
    | None => get_prop (JObj ps) k
    end.
Proof.
  destruct f as [f|]; cbn [with_image]; [| split; eauto].
  destruct (set_prop_object ps "imageUrl" (str (file_path f))) as [ps1 H1].
  rewrite H1. split; [apply set_prop_object |]. intros k.
  rewrite get_set_prop. destruct (String.eqb k "cloudinaryId"); [reflexivity |].
  rewrite <- H1. apply get_set_prop.
Qed.

Lemma replace_image_run e ps f (w : world) :
  replace_image e (JObj ps) f w =
  let w' := World (docs w) (trace w ++ image_delete_call (JObj ps) f) in
  if image_delete_rejected e (JObj ps) f
  then (Throws (ApiError "destroy failed"), w')
  else (Normal (with_image (JObj ps) f), w').
Proof.
  unfold image_delete_rejected, image_delete_call, blob_delete_rejected,
    blob_delete_call.
  destruct f as [f|]; cbn [replace_image with_image].
  - cbn [get_prop]. rewrite bind_lift.
    destruct (assoc "cloudinaryId" ps) as [c|].
    + destruct (truthy c); cbn [andb].
      * unfold bind, uploader_destroy.
        destruct (destroy_rejects e c); reflexivity.
      * rewrite bind_ret. destruct w; cbn [docs trace ret].
        now rewrite app_nil_r.
    + rewrite bind_ret. destruct w; cbn [docs trace ret].
      now rewrite app_nil_r.
  - destruct w; cbn [docs trace ret]. now rewrite app_nil_r.
Qed.

(** The whole run of [PUT /products/:id] on a stored collection whose
    first matching record is [p]. *)
Lemma put_product_run e id b f w l1 p l2 :
  stored w "products" (l1 ++ p :: l2) ->
  Forall (fun q => id_is (parseInt id 0) q = Normal false) l1 ->
  id_is (parseInt id 0) p = Normal true ->
  put_product e id b f w =
  if image_delete_rejected e p f
  then (Throws (ApiError "destroy failed"),
        World (docs w) (trace w ++ image_delete_call p f))
  else (Normal (Response 200
                  (JObj [("message", JStr "Product updated");
                         ("product", updated p b f)])),
        World (<[doc_id "products" := JArr (l1 ++ updated p b f :: l2)]> (docs w))
          ((trace w ++ image_delete_call p f)
           ++ [Upload (doc_id "products") (JArr (l1 ++ updated p b f :: l2))])).
Proof.
  intros Hst Hl1 Hp. destruct (matched_is_object _ _ Hp) as [ps ->].
  unfold put_product.
  rewrite (bind_run _ _ _ _ _ (ensure_stored _ _ _ _ Hst)). cbn [as_array].
  rewrite bind_lift, (findIndex_first _ _ _ _ Hl1 Hp), bind_lift.
  unfold element. rewrite list_lookup_middle by reflexivity.
  rewrite bind_lift.
  assert (Hrest : forall w1 : world,
    (p2 <- lift (retain (with_image (JObj ps) f) "name" (p_name b)) ;;
     p3 <- lift (retain p2 "price" (p_price b)) ;;
     p4 <- lift (retain p3 "description" (p_description b)) ;;
     saveJsonToCloudinary "products" (JArr (<[length l1 := p4]> (l1 ++ JObj ps :: l2)%list)) ;;;
     ret (Response 200
            (JObj [("message", JStr "Product updated"); ("product", p4)]))) w1 =
    (Normal (Response 200
               (JObj [("message", JStr "Product updated");
                      ("product", updated (JObj ps) b f)])),
     World (<[doc_id "products" := JArr (l1 ++ updated (JObj ps) b f :: l2)]> (docs w1))
       (trace w1 ++ [Upload (doc_id "products")
                       (JArr (l1 ++ updated (JObj ps) b f :: l2))]))).
  { intros w1. unfold updated.
    destruct (with_image_object ps f) as [[ps0 ->] _].
    destruct (retain_object ps0 "name" (p_name b)) as (-> & [ps1 ->] & _).
    rewrite bind_lift.
    destruct (retain_object ps1 "price" (p_price b)) as (-> & [ps2 ->] & _).
    rewrite bind_lift.
    destruct (retain_object ps2 "description" (p_description b)) as (-> & _).
    rewrite bind_lift, (bind_run _ _ _ _ _ (save_run _ _ _)).
    rewrite insert_app_r_alt by lia. now rewrite Nat.sub_diag. }
  pose proof (replace_image_run e ps f w) as Himg.
  destruct (image_delete_rejected e (JObj ps) f).
  - now rewrite (bind_throw _ _ _ _ _ Himg).
  - now rewrite (bind_run _ _ _ _ _ Himg), Hrest.
Qed.

(** Every property of the product that the update saves. *)
Lemma updated_get ps b f k :
  get_prop (updated (JObj ps) b f) k =
  Normal
    (if String.eqb k "description"
     then js_or (opt_str (p_description b)) (assoc "description" ps)
     else if String.eqb k "price"
     then js_or (opt_str (p_price b)) (assoc "price" ps)
     else if String.eqb k "name"
     then js_or (opt_str (p_name b)) (assoc "name" ps)
     else match f with
          | Some f =>
              if String.eqb k "cloudinaryId" then str (file_filename f)
              else if String.eqb k "imageUrl" then str (file_path f)
              else assoc k ps
          | None => assoc k ps
          end).
Proof.
  unfold updated.
  destruct (with_image_object ps f) as [[ps0 E0] H0]. rewrite E0 in *.
  destruct (retain_object ps0 "name" (p_name b)) as (_ & [ps1 E1] & H1).
  rewrite E1 in *.
  destruct (retain_object ps1 "price" (p_price b)) as (_ & [ps2 E2] & H2).
  rewrite E2 in *.
  destruct (retain_object ps2 "description" (p_description b)) as (_ & _ & H3).
  assert (Hd : assoc "description" ps2 = assoc "description" ps).
  { pose proof (H2 "description") as A2. pose proof (H1 "description") as A1.
    pose proof (H0 "description") as A0. cbn in A2, A1, A0.
    destruct f; cbn in A0; congruence. }
  assert (Hp : assoc "price" ps1 = assoc "price" ps).
  { pose proof (H1 "price") as A1. pose proof (H0 "price") as A0.
    cbn in A1, A0. destruct f; cbn in A0; congruence. }
  assert (Hn : assoc "name" ps0 = assoc "name" ps).
  { pose proof (H0 "name") as A0. cbn in A0. destruct f; cbn in A0; congruence. }
  rewrite H3, Hd. destruct (String.eqb k "description"); [reflexivity |].
  rewrite H2, Hp. destruct (String.eqb k "price"); [reflexivity |].
  rewrite H1, Hn. destruct (String.eqb k "name"); [reflexivity |].
  rewrite H0. destruct f as [f|]; [| reflexivity].
  destruct (String.eqb k "cloudinaryId"); [reflexivity |].
  destruct (String.eqb k "imageUrl"); reflexivity.
Qed.

Lemma update_key_false k :
  update_key k = false ->
  String.eqb k "imageUrl" = false /\ String.eqb k "cloudinaryId" = false /\
  String.eqb k "name" = false /\ String.eqb k "price" = false /\
  String.eqb k "description" = false.
Proof.
  unfold update_key. intros H.
  repeat (apply orb_false_elim in H; destruct H as [H ?]). auto.
Qed.

(** X7: an update that is answered puts the changed product in the place of
    the old one and leaves the other products as they are; every property
    other than [name], [price], [description], [imageUrl] and
    [cloudinaryId] keeps its value, so the product keeps its [id] and is
    found again under the same path id. *)
Theorem put_product_keeps_identity (e : env) (id : string) (b : product_body)
    (f : option file) (w : world) (l1 l2 : list json) (p : json) :
  stored w "products" (l1 ++ p :: l2) ->
  Forall (fun q => id_is (parseInt id 0) q = Normal false) l1 ->
  id_is (parseInt id 0) p = Normal true ->
  image_delete_rejected e p f = false ->
  let r := put_product e id b f w in
  exists p',
    fst r =
      Normal (Response 200
                (JObj [("message", JStr "Product updated"); ("product", p')])) /\
    stored (snd r) "products" (l1 ++ p' :: l2) /\
    (forall k, update_key k = false -> get_prop p' k = get_prop p k) /\
    id_is (parseInt id 0) p' = Normal true.
Proof.
  intros Hst Hl1 Hp Hok r. subst r.
  rewrite (put_product_run e id b f w l1 p l2 Hst Hl1 Hp), Hok.
  destruct (matched_is_object _ _ Hp) as [ps ->].
  exists (updated (JObj ps) b f). cbn [fst snd].
  split; [reflexivity |]. split.
  { unfold stored. cbn [docs]. apply lookup_insert_eq. }
  assert (Hframe : forall k, update_key k = false ->
            get_prop (updated (JObj ps) b f) k = get_prop (JObj ps) k).
  { intros k Hk. rewrite updated_get.
    destruct (update_key_false k Hk) as (-> & -> & -> & -> & ->).
    now destruct f. }
  split; [exact Hframe |].
  unfold id_is. rewrite (Hframe "id" eq_refl). exact Hp.
Qed.

Lemma put_product_keeps_identity_witness :
  exists p',
    stored (snd (put_product calm "123" hat_body (Some photo) shop)) "products"
      [tee; p'; cap_again] /\
    get_prop p' "id" = get_prop cap "id".
Proof.
  destruct (put_product_keeps_identity calm "123" hat_body (Some photo) shop
              [tee] [cap_again] cap) as (p' & _ & Hst & Hframe & _).
  - vm_compute. reflexivity.
  - repeat constructor.
  - reflexivity.
  - reflexivity.
  - exists p'. split; [exact Hst | apply Hframe; reflexivity].
Defined.

(** X8: in an update that is answered, each of [name], [price] and
    [description] takes the value of its body field when that is supplied
    and not empty and keeps its old value otherwise, and [imageUrl] and
    [cloudinaryId] take the values of the uploaded file when there is one
    and keep theirs otherwise. *)
Theorem put_product_fields (e : env) (id : string) (b : product_body)
    (f : option file) (w : world) (l1 l2 : list json) (p : json)
    (name0 price0 description0 imageUrl0 cloudinaryId0 : jsval) :
  stored w "products" (l1 ++ p :: l2) ->
  Forall (fun q => id_is (parseInt id 0) q = Normal false) l1 ->
  id_is (parseInt id 0) p = Normal true ->
  image_delete_rejected e p f = false ->
  get_prop p "name" = Normal name0 ->
  get_prop p "price" = Normal price0 ->
  get_prop p "description" = Normal description0 ->
  get_prop p "imageUrl" = Normal imageUrl0 ->
  get_prop p "cloudinaryId" = Normal cloudinaryId0 ->
  exists p',
    fst (put_product e id b f w) =
      Normal (Response 200
                (JObj [("message", JStr "Product updated"); ("product", p')])) /\
    get_prop p' "name" = Normal (js_or (opt_str (p_name b)) name0) /\
    get_prop p' "price" = Normal (js_or (opt_str (p_price b)) price0) /\
    get_prop p' "description" =
      Normal (js_or (opt_str (p_description b)) description0) /\
    get_prop p' "imageUrl" =
      Normal (match f with
              | Some f => Some (JStr (file_path f))
              | None => imageUrl0
              end) /\
    get_prop p' "cloudinaryId" =
      Normal (match f with
              | Some f => Some (JStr (file_filename f))
              | None => cloudinaryId0
              end).
Proof.
  intros Hst Hl1 Hp Hok Hn Hpr Hd Hi Hc.
  rewrite (put_product_run e id b f w l1 p l2 Hst Hl1 Hp), Hok.
  destruct (matched_is_object _ _ Hp) as [ps ->].
  cbn [get_prop] in Hn, Hpr, Hd, Hi, Hc.
  simplify_eq.
  exists (updated (JObj ps) b f). cbn [fst].
  split; [reflexivity |]. rewrite !updated_get.
  repeat split; destruct f; reflexivity.
Qed.

Lemma put_product_fields_witness :
  exists p',
    fst (put_product calm "1" scarf_body None shop) =
      Normal (Response 200
                (JObj [("message", JStr "Product updated"); ("product", p')])) /\
    get_prop p' "name" = Normal (Some (JStr "Scarf")) /\
    get_prop p' "price" = Normal (Some (JStr "9.99")).
Proof.
  destruct (put_product_fields calm "1" scarf_body None shop [] [cap; cap_again]
              tee (Some (JStr "Tee")) (Some (JStr "9.99"))
              (Some (JStr "Cotton"))
              (Some (JStr "https://res.cloudinary.com/demo/1.jpg"))
              (Some (JStr "bstore_products/1")))
    as (p' & Hr & Hn & Hp & _);
    [vm_compute; reflexivity | constructor | reflexivity .. |].
  exists p'. auto.
Defined.

(** X9: when Cloudinary rejects the delete of the old image, an update that
    carries a new image is not answered by the handler and nothing is saved:
    the stored product keeps its old fields. *)
Theorem put_product_rejected (e : env) (id : string) (b : product_body)
    (f : file) (w : world) (l1 l2 : list json) (p c : json) :
  stored w "products" (l1 ++ p :: l2) ->
  Forall (fun q => id_is (parseInt id 0) q = Normal false) l1 ->
  id_is (parseInt id 0) p = Normal true ->
  get_prop p "cloudinaryId" = Normal (Some c) ->
  truthy c = true ->
  destroy_rejects e c = true ->
  put_product e id b (Some f) w =
  (Throws (ApiError "destroy failed"),
   World (docs w) (trace w ++ [Destroy c])).
Proof.
  intros Hst Hl1 Hp Hc Ht Hrej.
  rewrite (put_product_run e id b (Some f) w l1 p l2 Hst Hl1 Hp).
  unfold image_delete_rejected, image_delete_call, blob_delete_rejected,
    blob_delete_call.
  now rewrite Hc, Ht, Hrej.
Qed.

Lemma put_product_rejected_witness :
  put_product stormy "1" hat_body (Some photo) shop =
  (Throws (ApiError "destroy failed"),
   World (docs shop) (trace shop ++ [Destroy (JStr "bstore_products/1")])).
Proof.
  apply (put_product_rejected stormy "1" hat_body photo shop [] [cap; cap_again]
           tee (JStr "bstore_products/1"));
    [vm_compute; reflexivity | constructor | reflexivity ..].
Defined.

(** *** Settings *)




(** *** The cart of a receipt *)

Lemma cart_key_cases k :
  cart_key k = true ->
  k = "id" \/ k = "name" \/ k = "price" \/ k = "quantity".
Proof.
  unfold cart_key. intros H.
  repeat (apply orb_prop in H; destruct H as [H | H]);
    apply String.eqb_eq in H; auto.
Qed.

(** A cart item that is not [null] is projected to an object that has the
    properties [id], [name], [price] and [quantity] of the item and no
    other; projecting the result again changes nothing. *)
Lemma minimal_item_projects item :
  item <> JNull ->
  exists q,
    minimal_item item = Normal q /\
    minimal_item q = Normal q /\
    kept_of item q.
Proof.
  intros Hnn.
  assert (Hprim : (forall k, get_prop item k = Normal None) ->
            minimal_item item = Normal (JObj []) ->
            exists q, minimal_item item = Normal q /\ minimal_item q = Normal q /\
              kept_of item q).
  { intros Hnone Hm. exists (JObj []). split; [exact Hm |].
    split; [reflexivity |]. split; [now exists [] |]. split; [| reflexivity].
    intros k. rewrite Hnone. now destruct (cart_key k). }
  destruct item as [| bb | n | s | l | ps];
    try (apply Hprim; [intros k |]; reflexivity).
  - now destruct Hnn.
  - unfold minimal_item. cbn [get_prop]. eexists. split; [reflexivity |].
    split; [| split; [| split]].
    + destruct (assoc "id" ps), (assoc "name" ps), (assoc "price" ps),
        (assoc "quantity" ps); reflexivity.
    + unfold object_literal. eauto.
    + intros k. rewrite object_literal_get. cbn [get_prop].
      destruct (cart_key k) eqn:Hk.
      * destruct (cart_key_cases k Hk) as [-> | [-> | [-> | ->]]];
          destruct (assoc "id" ps), (assoc "name" ps), (assoc "price" ps),
            (assoc "quantity" ps); reflexivity.
      * unfold cart_key in Hk.
        repeat (apply orb_false_elim in Hk; destruct Hk as [Hk ?]).
        cbn [first_defined].
        destruct (assoc "id" ps), (assoc "name" ps), (assoc "price" ps),
          (assoc "quantity" ps);
          repeat match goal with H : String.eqb _ _ = false |- _ =>
                   rewrite H; clear H end; reflexivity.
    + intros Hno. now destruct (Hno ps).
Qed.

Lemma map_items_null l :
  In JNull l -> exists msg, map_items l = Throws (TypeError msg).
Proof.
  induction l as [|x l IH]; [intros [] |]. intros [-> | Hin].
  - eexists. reflexivity.
  - cbn [map_items]. destruct (IH Hin) as [msg Hm].
    destruct (minimal_item x) as [y | err] eqn:Hx.
    + rewrite Hm. eauto.
    + destruct x; try discriminate Hx. cbn in Hx. injection Hx as <-. eauto.
Qed.

(** The relation between a cart item sent and the cart item stored. *)
Lemma map_items_projects l :
  Forall (fun item => item <> JNull) l ->
  exists m, map_items l = Normal m /\ Forall2 kept_of l m.
Proof.
  induction 1 as [|x l Hx _ (m & Hm & Hall)]; [exists []; split; constructor |].
  destruct (minimal_item_projects x Hx) as (q & Hq & _ & Hk).
  exists (q :: m). cbn [map_items]. rewrite Hq, Hm.
  split; [reflexivity | now constructor].
Qed.

(** X11: of every item of a cart that [JSON.parse] reads as an array
    without [null], the stored receipt keeps an object with the properties
    [id], [name], [price] and [quantity] of the item and nothing else, item
    by item in the order of the cart; for an item that is not an object it
    keeps the empty object. *)
Theorem post_upload_strips_cart (P : string -> option json) (e : env)
    (b : upload_body) (f : option file) (w : world) (old cart : list json)
    (s : string) :
  collection w "receipts" old ->
  u_cartItems b = Some s ->
  P s = Some (JArr cart) ->
  Forall (fun item => item <> JNull) cart ->
  exists meta m,
    fst (post_upload P e b f w) =
      Normal (Response 200
                (JObj [("message", JStr "Receipt saved"); ("receipt", meta)])) /\
    stored (snd (post_upload P e b f w)) "receipts" (meta :: old) /\
    get_prop meta "cartItems" = Normal (Some (JArr m)) /\
    Forall2 kept_of cart m.
Proof.
  intros Hc Hs HP Hcart.
  destruct (map_items_projects cart Hcart) as (m & Hm & Hall).
  assert (Hmin : minimalCartItems (parse_cartItems P (u_cartItems b)) = Normal m).
  { unfold parse_cartItems. rewrite Hs. simpl. now rewrite HP. }
  destruct (post_upload_prepends P e b f w old m Hc Hmin) as [Hr Hst].
  exists (receiptMeta e b f m), m.
  repeat apply conj; try assumption. apply receiptMeta_cartItems.
Qed.

Lemma post_upload_strips_cart_witness :
  exists meta q1 q2,
    stored (snd (post_upload parse_basket calm
                   (order_body "ORD7" (Some basket_text)) None shop))
      "receipts" [meta; order1] /\
    get_prop meta "cartItems" = Normal (Some (JArr [q1; q2])) /\
    (exists ps, q1 = JObj ps) /\
    get_prop q1 "id" = Normal (Some (JNum 1)) /\
    get_prop q1 "name" = Normal (Some (JStr "Tee")) /\
    get_prop q1 "price" = Normal (Some (JStr "9.99")) /\
    get_prop q1 "quantity" = Normal (Some (JNum 2)) /\
    get_prop q1 "sku" = Normal None /\
    q2 = JObj [].
Proof.
  destruct (post_upload_strips_cart parse_basket calm
              (order_body "ORD7" (Some basket_text)) None shop [order1]
              basket basket_text)
    as (meta & m & _ & Hst & Hcart & Hall).
  - left. vm_compute. reflexivity.
  - reflexivity.
  - reflexivity.
  - repeat constructor; discriminate.
  - destruct m as [|q1 [|q2 [|q3 m]]];
      try (exfalso; apply Forall2_length in Hall; discriminate Hall).
    apply Forall2_cons_1 in Hall as [(Hobj & Hk1 & _) Hall].
    apply Forall2_cons_1 in Hall as [(_ & _ & Hprim) _].
    exists meta, q1, q2.
    repeat apply conj; try assumption.
    + exact (Hk1 "id").
    + exact (Hk1 "name").
    + exact (Hk1 "price").
    + exact (Hk1 "quantity").
    + exact (Hk1 "sku").
    + apply Hprim. discriminate.
Defined.

(** X12: a cart that [JSON.parse] accepts but that is not an array, or an
    array with a [null] item, makes [POST /upload] throw a [TypeError]
    before the store is read: no receipt is stored and nothing is
    written. *)
Theorem post_upload_bad_cart (P : string -> option json) (e : env)
    (b : upload_body) (f : option file) (w : world) (s : string) (v : json) :
  u_cartItems b = Some s ->
  P s = Some v ->
  (forall l, v = JArr l -> In JNull l) ->
  exists msg, post_upload P e b f w = (Throws (TypeError msg), w).
Proof.
  intros Hs HP Hbad.
  assert (Hmin : exists msg,
            minimalCartItems (parse_cartItems P (u_cartItems b)) =
            Throws (TypeError msg)).
  { unfold parse_cartItems. rewrite Hs. simpl. rewrite HP. simpl.
    destruct v as [| bb | n | t | l | ps]; try (eexists; reflexivity).
    unfold minimalCartItems. cbn [as_array].
    apply map_items_null, Hbad. reflexivity. }
  destruct Hmin as [msg Hmin]. exists msg.
  unfold post_upload. now rewrite Hmin.
Qed.

Lemma post_upload_bad_cart_witness :
  exists msg,
    post_upload parse_few calm (order_body "ORD7" (Some "[null]")) None shop =
    (Throws (TypeError msg), shop).
Proof.
  apply (post_upload_bad_cart parse_few calm (order_body "ORD7" (Some "[null]"))
           None shop "[null]" (JArr [JNull])).
  - reflexivity.
  - reflexivity.
  - intros l [= <-]. left. reflexivity.
Defined.

(** X13: the receipt that [POST /upload] stores takes each text field of
    the body when it is supplied and not empty, and otherwise its default:
    [ORD] followed by the clock for [orderId], [0.00] for [total], the
    current time for [uploadedAt], the empty string for [cname], [note] and
    [paymentMethod]; it has [receiptUrl] and [cloudinaryId] exactly when a
    file came with the request. *)
Theorem post_upload_defaults (P : string -> option json) (e : env)
    (b : upload_body) (f : option file) (w : world) (old m : list json) :
  collection w "receipts" old ->
  minimalCartItems (parse_cartItems P (u_cartItems b)) = Normal m ->
  exists meta,
    stored (snd (post_upload P e b f w)) "receipts" (meta :: old) /\
    get_prop meta "orderId" =
      Normal (str (or_default (u_orderId b) ("ORD" +:+ pretty (Date_now e)))) /\
    get_prop meta "cname" = Normal (str (or_default (u_cname b) "")) /\
    get_prop meta "note" = Normal (str (or_default (u_note b) "")) /\
    get_prop meta "total" = Normal (str (or_default (u_total b) "0.00")) /\
    get_prop meta "paymentMethod" =
      Normal (str (or_default (u_paymentMethod b) "")) /\
    get_prop meta "uploadedAt" =
      Normal (str (or_default (u_timestamp b) (Date_toISOString e))) /\
    get_prop meta "receiptUrl" = Normal (opt_str (file_path <$> f)) /\
    get_prop meta "cloudinaryId" = Normal (opt_str (file_filename <$> f)).
Proof.
  intros Hc Hm.
  destruct (post_upload_prepends P e b f w old m Hc Hm) as [_ Hst].
  exists (receiptMeta e b f m). split; [exact Hst |].
  unfold receiptMeta. rewrite !js_or_str.
  destruct f as [f|]; repeat split; reflexivity.
Qed.

Lemma post_upload_defaults_witness :
  exists meta,
    stored (snd (post_upload parse_few calm
                   (UploadBody (Some "") None None None None None None)
                   (Some photo) shop)) "receipts" [meta; order1] /\
    get_prop meta "orderId" = Normal (Some (JStr "ORD1700000000000")) /\
    get_prop meta "total" = Normal (Some (JStr "0.00")).
Proof.
  destruct (post_upload_defaults parse_few calm
              (UploadBody (Some "") None None None None None None)
              (Some photo) shop [order1] [])
    as (meta & Hst & Hid & _ & _ & Htotal & _).
  - left. vm_compute. reflexivity.
  - reflexivity.
  - exists meta. repeat split; assumption.
Defined.

(** *** The collections stay sequences *)

(** X14: every route of the Cloudinary variant keeps the products and the
    receipts collections well formed (absent, or stored as a sequence),
    whether it answers or throws; the store with no document is well
    formed. *)
Theorem routes_keep_collections (P : string -> option json) (e : env)
    (id : string) (ub : upload_body) (pb : product_body) (f : option file)
    (w : world) :
  well_formed w ->
  well_formed empty_store /\
  well_formed (snd (post_upload_qrcode f w)) /\
  well_formed (snd (get_settings w)) /\
  well_formed (snd (post_upload P e ub f w)) /\
  well_formed (snd (get_receipts w)) /\
  well_formed (snd (delete_receipt id w)) /\
  well_formed (snd (get_products w)) /\
  well_formed (snd (post_product e pb f w)) /\
  well_formed (snd (put_product e id pb f w)) /\
  well_formed (snd (delete_product e id w)).
Proof.
  intros Hw.
  destruct (routes_preserve_well_formed P e id ub pb f)
    as (H0 & H1 & H2 & H3 & H4 & H5 & H6 & H7 & H8 & H9).
  split; [exact H0 |].
  split; [exact (H1 w Hw) |]. split; [exact (H2 w Hw) |].
  split; [exact (H3 w Hw) |]. split; [exact (H4 w Hw) |].
  split; [exact (H5 w Hw) |]. split; [exact (H6 w Hw) |].
  split; [exact (H7 w Hw) |]. split; [exact (H8 w Hw) | exact (H9 w Hw)].
Qed.

Lemma routes_keep_collections_witness :
  well_formed (snd (delete_product stormy "1" shop)).
Proof.
  apply (routes_keep_collections parse_few stormy "1" (order_body "A" None)
           hat_body None shop).
  split.
  - exists products. left. vm_compute. reflexivity.
  - exists [order1]. left. vm_compute. reflexivity.
Defined.

End CloudRoutesFacts.

(** * More properties of the disk variant *)

Module HybridMoreFacts.
Import Js Effects Hybrid Samples Fixtures EffectsFacts CloudFacts NumberFacts
  HybridFacts.

(** *** [DELETE /products/:id] *)

(** X15: in the disk variant [DELETE /products/:id] is answered with the
    success message whether Cloudinary answers the blob delete or rejects
    it: the rejection is caught and logged, the first product with the id
    and only that one leaves the file, and the id handed to [destroy] is the
    normalised one. *)
Theorem disk_delete_is_lenient (e : env) (id : string) (w : world)
    (l1 l2 : list json) (p : json) (cid : jsval) (original : string) :
  products_json w = JsonText (JArr (l1 ++ p :: l2)) ->
  Forall (fun q => id_is (parseInt id 10) q = Normal false) l1 ->
  id_is (parseInt id 10) p = Normal true ->
  get_prop p "cloudinaryId" = Normal cid ->
  originalId cid = Normal original ->
  fst (delete_product e id w) =
    Normal (Response 200 (JObj [("message", JStr "Product deleted")])) /\
  products_json (snd (delete_product e id w)) = JsonText (JArr (l1 ++ l2)) /\
  trace (snd (delete_product e id w)) =
    (trace w
     ++ [LogAttempt (publicId original); Destroy (publicId original);
         if destroy_rejects e (publicId original)
         then LogError (ApiError "destroy failed")
         else LogResult])%list.
Proof.
  intros Hfile Hl1 Hp Hcid Horig.
  rewrite (disk_delete_product_run e id w l1 p l2 cid original Hfile Hl1 Hp
             Hcid Horig).
  repeat split.
Qed.

Lemma disk_delete_is_lenient_witness :
  fst (delete_product stormy_disk "1" disk) =
    Normal (Response 200 (JObj [("message", JStr "Product deleted")])) /\
  products_json (snd (delete_product stormy_disk "1" disk)) =
    JsonText (JArr [cap; cap_again]).
Proof.
  destruct (disk_delete_is_lenient stormy_disk "1" disk []
              [cap; cap_again] tee (Some (JStr "bstore_products/1"))
              "bstore_products/1") as (Hr & Hfile & _);
    [reflexivity | constructor | reflexivity ..|].
  split; assumption.
Defined.

(** X16: on a products file that is empty, or that holds a sequence in
    which no product has the id, [DELETE /products/:id] answers not-found,
    makes no call to Cloudinary and leaves the file as it is. *)
Theorem disk_delete_unknown (e : env) (id : string) (w : world)
    (l : list json) :
  products_json w = EmptyText \/
  (products_json w = JsonText (JArr l) /\
   Forall (fun q => id_is (parseInt id 10) q = Normal false) l) ->
  delete_product e id w =
  (Normal (Response 404 (JObj [("error", JStr "Product not found")])), w).
Proof.
  intros [Hempty | [Hfile Hl]]; unfold delete_product; cbv zeta.
  - assert (Hread : read_products w = (Normal (JArr []), w))
      by (unfold read_products; now rewrite Hempty).
    now rewrite (bind_run _ _ _ _ _ Hread).
  - assert (Hread : read_products w = (Normal (JArr l), w))
      by (unfold read_products; now rewrite Hfile).
    rewrite (bind_run _ _ _ _ _ Hread). cbn [as_array].
    now rewrite bind_lift, (findIndex_none _ _ Hl), bind_lift.
Qed.

Lemma disk_delete_unknown_witness :
  delete_product calm_disk "77" disk =
  (Normal (Response 404 (JObj [("error", JStr "Product not found")])), disk).
Proof.
  apply (disk_delete_unknown calm_disk "77" disk products).
  right. split; [reflexivity | repeat constructor].
Defined.

(** X17: a product that has no [cloudinaryId], or an empty one, still makes
    [DELETE /products/:id] call [destroy], with the folder alone as the id;
    the product is removed all the same. *)
Theorem disk_delete_without_asset (e : env) (id : string) (w : world)
    (l1 l2 : list json) (p : json) (cid : jsval) :
  products_json w = JsonText (JArr (l1 ++ p :: l2)) ->
  Forall (fun q => id_is (parseInt id 10) q = Normal false) l1 ->
  id_is (parseInt id 10) p = Normal true ->
  get_prop p "cloudinaryId" = Normal cid ->
  truthy_v cid = false ->
  let r := delete_product e id w in
  fst r = Normal (Response 200 (JObj [("message", JStr "Product deleted")])) /\
  products_json (snd r) = JsonText (JArr (l1 ++ l2)) /\
  Destroy "bstore_products/" ∈ trace (snd r).
Proof.
  intros Hfile Hl1 Hp Hcid Hfalsy.
  assert (Horig : originalId cid = Normal "")
    by (unfold originalId, js_or; now rewrite Hfalsy).
  exact (delete_product_is_lenient e id w l1 p l2 cid "" Hfile Hl1 Hp Hcid Horig).
Qed.

Lemma disk_delete_without_asset_witness :
  Destroy "bstore_products/" ∈ trace (snd (delete_product calm_disk "8" odd_disk)).
Proof.
  apply (disk_delete_without_asset calm_disk "8" odd_disk [] [odd] bare None);
    [reflexivity | constructor | reflexivity ..].
Defined.

(** X18: a [cloudinaryId] that is truthy and not a string makes
    [DELETE /products/:id] throw a [TypeError] outside the [try] block: the
    request is not answered, no call to Cloudinary is made and the file is
    left as it is. *)
Theorem disk_delete_odd_asset (e : env) (id : string) (w : world)
    (l1 l2 : list json) (p c : json) :
  products_json w = JsonText (JArr (l1 ++ p :: l2)) ->
  Forall (fun q => id_is (parseInt id 10) q = Normal false) l1 ->
  id_is (parseInt id 10) p = Normal true ->
  get_prop p "cloudinaryId" = Normal (Some c) ->
  truthy c = true ->
  (forall s, c <> JStr s) ->
  delete_product e id w =
  (Throws (TypeError "originalId.replace is not a function"), w).
Proof.
  intros Hfile Hl1 Hp Hcid Ht Hc. unfold delete_product. cbv zeta.
  assert (Hread : read_products w = (Normal (JArr (l1 ++ p :: l2)), w))
    by (unfold read_products; now rewrite Hfile).
  rewrite (bind_run _ _ _ _ _ Hread). cbn [as_array].
  rewrite bind_lift, (findIndex_first _ _ _ _ Hl1 Hp), bind_lift.
  unfold element. rewrite list_lookup_middle by reflexivity.
  rewrite bind_lift, Hcid, bind_lift.
  assert (Horig : originalId (Some c) =
                  Throws (TypeError "originalId.replace is not a function")).
  { unfold originalId, js_or. cbn [truthy_v]. rewrite Ht.
    destruct c; try reflexivity. now destruct (Hc s). }
  now rewrite Horig.
Qed.

Lemma disk_delete_odd_asset_witness :
  delete_product calm_disk "9" odd_disk =
  (Throws (TypeError "originalId.replace is not a function"), odd_disk).
Proof.
  apply (disk_delete_odd_asset calm_disk "9" odd_disk [bare] [] odd (JNum 17));
    [reflexivity | repeat constructor | reflexivity .. | discriminate].
Defined.

(** *** The id handed to [destroy] *)

(** X19: the id that the normalisation gives always names a folder. *)
Theorem publicId_names_folder (s : string) :
  includes_slash (publicId s) = true.
Proof.
  unfold publicId. destruct (includes_slash (strip_extension s)) eqn:H.
  - exact H.
  - reflexivity.
Qed.

Lemma digits_have_no_dot s :
  leading_decimal_prefix s = s ->
  Forall (fun c => Ascii.eqb c "." = false) (list_ascii_of_string s).
Proof.
  induction s as [|c s IH]; [constructor |]. cbn [leading_decimal_prefix].
  destruct (is_decimal_digit c) eqn:Hc; [| discriminate].
  intros [= H]. cbn. constructor; [| exact (IH H)].
  destruct c as [[] [] [] [] [] [] [] []]; try reflexivity; discriminate Hc.
Qed.

Lemma append_ascii (a b : string) :
  list_ascii_of_string (a +:+ b) =
  (list_ascii_of_string a ++ list_ascii_of_string b)%list.
Proof.
  induction a as [|c a IH]; [reflexivity |].
  rewrite append_cons. cbn. now rewrite IH.
Qed.

(** X20: an id that names a folder and has no dot is left as it is; such
    are the ids that the server stores itself, the products folder followed
    by the clock of the upload. *)
Theorem publicId_keeps_proper_id (s : string) (now : Z) :
  (includes_slash s = true ->
   Forall (fun c => Ascii.eqb c "." = false) (list_ascii_of_string s) ->
   publicId s = s) /\
  (0 <= now ->
   publicId ("bstore_products/" +:+ pretty now) =
   "bstore_products/" +:+ pretty now).
Proof.
  assert (Hkeep : forall t, includes_slash t = true ->
            Forall (fun c => Ascii.eqb c "." = false) (list_ascii_of_string t) ->
            publicId t = t).
  { intros t Hslash Hdot. unfold publicId.
    rewrite (strip_extension_no_dot t Hdot). now rewrite Hslash. }
  split; [apply Hkeep |]. intros Hnow. apply Hkeep; [reflexivity |].
  rewrite append_ascii. apply Forall_app. split.
  - repeat constructor.
  - apply digits_have_no_dot. destruct now as [|p|p]; [reflexivity | | lia].
    now destruct (pretty_pos_digits p) as (_ & H & _).
Qed.

Lemma publicId_keeps_proper_id_witness :
  publicId "bstore_products/1" = "bstore_products/1" /\
  publicId ("bstore_products/" +:+ pretty 1700000000000) =
    "bstore_products/" +:+ pretty 1700000000000.
Proof.
  destruct (publicId_keeps_proper_id "bstore_products/1" 1700000000000)
    as [H1 H2].
  split; [apply H1 | apply H2].
  - reflexivity.
  - repeat constructor.
  - lia.
Defined.

(** X21: an id that ends in an extension (a dot followed by one or more
    characters none of which is a dot or a slash) loses it, and gets the
    products folder in front when what is left names no folder. *)
Theorem publicId_cuts_extension (base ext : list ascii) :
  ext <> [] ->
  Forall (fun c => is_slash_or_dot c = false) ext ->
  publicId (string_of_list_ascii (base ++ "."%char :: ext)) =
  if includes_slash (string_of_list_ascii base)
  then string_of_list_ascii base
  else "bstore_products/" +:+ string_of_list_ascii base.
Proof.
  intros Hne Hext. unfold publicId.
  rewrite (strip_extension_cuts base ext Hne Hext).
  now destruct (includes_slash (string_of_list_ascii base)).
Qed.

Lemma publicId_cuts_extension_witness :
  publicId "1700000000000.jpg" = "bstore_products/1700000000000".
Proof.
  apply (publicId_cuts_extension (list_ascii_of_string "1700000000000")
           (list_ascii_of_string "jpg")).
  - discriminate.
  - repeat constructor.
Defined.

End HybridMoreFacts.

(** * Properties of the other routes of the disk variant *)

Module HybridRoutesFacts.
Import Js Effects Hybrid HybridRoutes Samples Fixtures EffectsFacts CloudFacts
  NumberFacts HybridFacts.

Lemma read_run (file : world -> file_content) (w : world) :
  read file w = (Normal (file w), w).
Proof. reflexivity. Qed.

(** X22: loading the module creates the settings and the products files
    with their defaults when they are missing and never touches a file that
    is there; on a disk where the products file was missing,
    [GET /products] throws before and answers the empty sequence after. *)
Theorem startup_creates_missing (w : world) :
  let w1 := snd (startup w) in
  fst (startup w) = Normal tt /\
  settings_json w1 =
    (if existsSync (settings_json w) then settings_json w
     else JsonText (JObj [("qrCodeUrl", JStr "")])) /\
  products_json w1 =
    (if existsSync (products_json w) then products_json w
     else JsonText (JArr [])) /\
  receipts_json w1 = receipts_json w /\
  trace w1 = trace w /\
  (products_json w = Missing ->
   get_products w = (Throws (SystemError "ENOENT"), w) /\
   get_products w1 = (Normal (Response 200 (JArr [])), w1)).
Proof.
  cbv zeta. unfold startup.
  rewrite (bind_run _ _ _ _ _ (read_run settings_json w)).
  destruct w as [s r p t]. cbn [settings_json products_json].
  assert (Hget : forall s', get_products (World s' r Missing t) =
                            (Throws (SystemError "ENOENT"), World s' r Missing t))
    by reflexivity.
  destruct s, p; cbn; repeat split; try discriminate; auto.
Qed.

Lemma startup_creates_missing_witness :
  get_products (snd (startup (World Missing Missing Missing []))) =
  (Normal (Response 200 (JArr [])), snd (startup (World Missing Missing Missing []))).
Proof.
  destruct (startup_creates_missing (World Missing Missing Missing []))
    as (_ & _ & _ & _ & _ & H).
  apply H. reflexivity.
Defined.

(** *** Receipts *)

(** The receipts a create finds on the disk: those of the file, or none
    when the file is missing. *)
Lemma post_upload_disk_run P e b f (w : world) l m :
  receipts_json w = JsonText (JArr l) \/ (receipts_json w = Missing /\ l = []) ->
  Cloud.minimalCartItems (Cloud.parse_cartItems P (Cloud.u_cartItems b)) = Normal m ->
  let meta := Cloud.receiptMeta e b f m in
  post_upload P e b f w =
  (Normal (Response 200
             (JObj [("message", JStr "Receipt data saved"); ("receipt", meta)])),
   World (settings_json w) (JsonText (JArr (meta :: l))) (products_json w)
     (trace w)).
Proof.
  intros Hfile Hm. cbv zeta. unfold post_upload. rewrite Hm, bind_lift.
  rewrite (bind_run _ _ _ _ _ (read_run receipts_json w)).
  destruct Hfile as [-> | [-> ->]]; reflexivity.
Qed.

(** X23: [POST /upload] of the disk variant puts the new receipt in front
    of the receipts of the file, starting from none when the file is
    missing, and [GET /receipts] then answers the new sequence. *)
Theorem disk_post_upload_prepends (P : string -> option json) (e : Cloud.env)
    (b : Cloud.upload_body) (f : option Cloud.file) (w : world)
    (l m : list json) :
  receipts_json w = JsonText (JArr l) \/ (receipts_json w = Missing /\ l = []) ->
  Cloud.minimalCartItems (Cloud.parse_cartItems P (Cloud.u_cartItems b)) = Normal m ->
  let r := post_upload P e b f w in
  let meta := Cloud.receiptMeta e b f m in
  fst r =
    Normal (Response 200
              (JObj [("message", JStr "Receipt data saved"); ("receipt", meta)])) /\
  receipts_json (snd r) = JsonText (JArr (meta :: l)) /\
  settings_json (snd r) = settings_json w /\
  products_json (snd r) = products_json w /\
  get_receipts (snd r) = (Normal (Response 200 (JArr (meta :: l))), snd r).
Proof.
  intros Hfile Hm. cbv zeta.
  rewrite (post_upload_disk_run P e b f w l m Hfile Hm). repeat split.
Qed.

Lemma disk_post_upload_prepends_witness :
  receipts_json
    (snd (post_upload parse_few calm (order_body "ORD7" (Some "[{}]")) None files)) =
  JsonText (JArr [Cloud.receiptMeta calm (order_body "ORD7" (Some "[{}]")) None
                    [JObj []]; order1]).
Proof.
  apply (disk_post_upload_prepends parse_few calm
           (order_body "ORD7" (Some "[{}]")) None files [order1] [JObj []]).
  - left. reflexivity.
  - reflexivity.
Defined.

(** X24: a receipts file that does not parse is never repaired: every
    [POST /upload] throws and leaves the file as it is, whatever the request
    carries, and [GET /receipts] answers status 500 without writing. *)
Theorem disk_corrupt_receipts_stay (P : string -> option json) (e : Cloud.env)
    (b : Cloud.upload_body) (f : option Cloud.file) (w : world) :
  receipts_json w = EmptyText ->
  (exists err, post_upload P e b f w = (Throws err, w)) /\
  get_receipts w =
    (Normal (Response 500 (JObj [("error", JStr "Failed to parse receipts.json")])),
     w).
Proof.
  intros Hfile. split.
  - unfold post_upload.
    destruct (Cloud.minimalCartItems
                (Cloud.parse_cartItems P (Cloud.u_cartItems b))) as [m | err].
    + rewrite bind_lift, (bind_run _ _ _ _ _ (read_run receipts_json w)), Hfile.
      eexists. reflexivity.
    + eexists. reflexivity.
  - unfold get_receipts.
    rewrite (bind_run _ _ _ _ _ (read_run receipts_json w)), Hfile. reflexivity.
Qed.

Lemma disk_corrupt_receipts_stay_witness :
  get_receipts files_corrupt =
  (Normal (Response 500 (JObj [("error", JStr "Failed to parse receipts.json")])),
   files_corrupt).
Proof.
  apply (disk_corrupt_receipts_stay parse_few calm (order_body "ORD7" None) None
           files_corrupt).
  reflexivity.
Defined.

(** *** Settings *)

(** X25: in the disk variant [POST /upload-qrcode] replaces the settings
    file by the url and id of the upload and [GET /settings] then answers
    them; without a file the upload is refused with status 400 and nothing
    is written; and [GET /settings] answers the default [{qrCodeUrl: ""}]
    for a missing file without creating it. *)
Theorem disk_settings_follow_qrcode (f : Cloud.file) (w : world) :
  let uploaded :=
    JObj [("qrCodeUrl", JStr (Cloud.file_path f));
          ("cloudinaryId", JStr (Cloud.file_filename f))] in
  let w1 := snd (post_upload_qrcode (Some f) w) in
  post_upload_qrcode None w =
    (Normal (Response 400 (JObj [("error", JStr "No QR code image uploaded")])),
     w) /\
  w1 = World (JsonText uploaded) (receipts_json w) (products_json w) (trace w) /\
  get_settings w1 = (Normal (Response 200 uploaded), w1) /\
  (settings_json w = Missing ->
   get_settings w =
     (Normal (Response 200 (JObj [("qrCodeUrl", JStr "")])), w)).
Proof.
  cbv zeta. repeat split. intros Hmiss. unfold get_settings.
  now rewrite (bind_run _ _ _ _ _ (read_run settings_json w)), Hmiss.
Qed.

Lemma disk_settings_follow_qrcode_witness :
  get_settings files =
  (Normal (Response 200 (JObj [("qrCodeUrl", JStr "")])), files).
Proof.
  destruct (disk_settings_follow_qrcode photo files) as (_ & _ & _ & H).
  apply H. reflexivity.
Defined.

(** *** Products *)

Lemma post_product_disk_run e b f (w : world) l :
  products_json w = JsonText (JArr l) ->
  post_product e b (Some f) w =
  (Normal (Response 200
             (JObj [("message", JStr "Product added");
                    ("product", Words.newProduct e b f)])),
   World (settings_json w) (receipts_json w)
     (JsonText (JArr (l ++ [Words.newProduct e b f]))) (trace w)).
Proof.
  intros Hfile. unfold post_product.
  rewrite (bind_run _ _ _ _ _ (read_run products_json w)), Hfile.
  reflexivity.
Qed.

Lemma newProduct_matches_radix10 e b f :
  id_is (parseInt (pretty (Cloud.Date_now e)) 10) (Words.newProduct e b f)
  = Normal true.
Proof.
  rewrite (proj2 (id_is_pretty (Cloud.Date_now e) _)).
  destruct (CloudRoutesFacts.newProduct_fields e b f) as (Hid & _).
  unfold id_is. rewrite Hid. cbn [strict_eq_num]. now rewrite Z.eqb_refl.
Qed.

(** X26: in the disk variant a product created by [POST /products] is
    removed again by [DELETE /products/:id] with the decimal text of its
    [id]: when no product had that id before, the delete is answered with
    the success message and the products file is back to what it was,
    whether Cloudinary answers the blob delete or rejects it; the other
    files are not touched. *)
Theorem disk_create_then_delete (e : Cloud.env) (e' : env)
    (b : Cloud.product_body) (f : Cloud.file) (w : world) (l : list json) :
  products_json w = JsonText (JArr l) ->
  Forall (fun q => id_is (Some (Cloud.Date_now e)) q = Normal false) l ->
  let w1 := snd (post_product e b (Some f) w) in
  let r := delete_product e' (pretty (Cloud.Date_now e)) w1 in
  products_json w1 = JsonText (JArr (l ++ [Words.newProduct e b f])) /\
  fst r = Normal (Response 200 (JObj [("message", JStr "Product deleted")])) /\
  products_json (snd r) = JsonText (JArr l) /\
  settings_json (snd r) = settings_json w /\
  receipts_json (snd r) = receipts_json w.
Proof.
  intros Hfile Hl. cbv zeta.
  rewrite (post_product_disk_run e b f w l Hfile). cbn [snd products_json].
  split; [reflexivity |].
  assert (Hl' : Forall (fun q => id_is (parseInt (pretty (Cloud.Date_now e)) 10) q
                                 = Normal false) l).
  { eapply Forall_impl; [exact Hl |]. intros q Hq.
    now rewrite (proj2 (id_is_pretty (Cloud.Date_now e) q)). }
  destruct (CloudRoutesFacts.newProduct_fields e b f) as (_ & _ & _ & _ & _ & Hcid).
  assert (Horig : originalId (Some (JStr (Cloud.file_filename f))) =
                  Normal (Cloud.file_filename f)).
  { unfold originalId, js_or. cbn [truthy_v truthy].
    destruct (String.eqb_spec (Cloud.file_filename f) "") as [-> | _];
      reflexivity. }
  unfold delete_product. cbn [products_json trace settings_json receipts_json].
  pose proof (disk_delete_product_run e' (pretty (Cloud.Date_now e))
                (Hybrid.World (JsonText (JArr (l ++ [Words.newProduct e b f])))
                   (trace w))
                l (Words.newProduct e b f) [] _ _ eq_refl Hl'
                (newProduct_matches_radix10 e b f) Hcid Horig) as Hrun.
  rewrite Hrun. cbn [fst snd Hybrid.products_json]. rewrite app_nil_r.
  repeat split.
Qed.

Lemma disk_create_then_delete_witness :
  products_json
    (snd (delete_product stormy_disk (pretty (Cloud.Date_now calm))
            (snd (post_product calm hat_body (Some photo) files)))) =
  JsonText (JArr products).
Proof.
  apply (disk_create_then_delete calm stormy_disk hat_body photo files products).
  - reflexivity.
  - repeat constructor.
Defined.

End HybridRoutesFacts.

(** * Properties of the oldest variant *)

Module DiskFacts.
Import Js Effects Hybrid Disk Samples Fixtures EffectsFacts CloudFacts
  NumberFacts.

Lemma post_upload_oldest_run iso b f (w : world) l :
  receipts_json w = JsonText (JArr l) \/ (receipts_json w = Missing /\ l = []) ->
  post_upload iso b (Some f) w =
  (Normal (Response 200
             (JObj [("message", JStr "Receipt uploaded and saved with metadata");
                    ("receipt", receiptMeta iso b f)])),
   World (JsonText (JArr (l ++ [receiptMeta iso b f])))).
Proof.
  intros Hfile. unfold post_upload, bind, read_receipts.
  destruct Hfile as [-> | [-> ->]]; reflexivity.
Qed.

(** X27: in the oldest variant [POST /upload] without a file is refused
    with status 400 and writes nothing, and with a file puts the new receipt
    behind the receipts of the file, so that after two uploads
    [GET /receipts] answers the older receipts, then the first upload, then
    the second: oldest first. *)
Theorem oldest_post_upload_appends (isoA isoB : string) (bA bB : upload_body)
    (fA fB : file) (w : world) (l : list json) :
  receipts_json w = JsonText (JArr l) \/ (receipts_json w = Missing /\ l = []) ->
  let w1 := snd (post_upload isoA bA (Some fA) w) in
  let w2 := snd (post_upload isoB bB (Some fB) w1) in
  post_upload isoA bA None w =
    (Normal (Response 400 (JObj [("error", JStr "No file uploaded")])), w) /\
  receipts_json w1 = JsonText (JArr (l ++ [receiptMeta isoA bA fA])) /\
  get_receipts w2 =
    (Normal (Response 200
               (JArr (l ++ [receiptMeta isoA bA fA; receiptMeta isoB bB fB]))),
     w2).
Proof.
  intros Hfile. cbv zeta. split; [reflexivity |].
  rewrite (post_upload_oldest_run isoA bA fA w l Hfile). cbn [snd receipts_json].
  split; [reflexivity |].
  rewrite (post_upload_oldest_run isoB bB fB _ (l ++ [receiptMeta isoA bA fA]))
    by (left; reflexivity).
  cbn [snd]. rewrite <- app_assoc. reflexivity.
Qed.

Lemma oldest_post_upload_appends_witness :
  get_receipts
    (snd (post_upload "2024-01-03T00:00:00.000Z" no_fields (Some scan)
            (snd (post_upload "2024-01-02T00:00:00.000Z" no_fields (Some scan)
                    oldest)))) =
  (Normal (Response 200
             (JArr [receiptMeta "2024-01-02T00:00:00.000Z" no_fields scan;
                    receiptMeta "2024-01-03T00:00:00.000Z" no_fields scan])),
   snd (post_upload "2024-01-03T00:00:00.000Z" no_fields (Some scan)
          (snd (post_upload "2024-01-02T00:00:00.000Z" no_fields (Some scan)
                  oldest)))).
Proof.
  apply (oldest_post_upload_appends "2024-01-02T00:00:00.000Z"
           "2024-01-03T00:00:00.000Z" no_fields no_fields scan scan oldest []).
  right. split; reflexivity.
Defined.

Lemma append_nil_r (s : string) : s +:+ "" = s.
Proof. induction s as [|c s IH]; [reflexivity |]. now rewrite append_cons, IH. Qed.

Lemma clock_prefix (now : Z) (original : string) :
  0 <= now ->
  leading_decimal_prefix (uniqueName now original) = pretty now.
Proof.
  intros Hnow. unfold uniqueName.
  assert (Hd : leading_decimal_prefix (pretty now) = pretty now).
  { destruct now as [|p|p]; [reflexivity | | lia].
    now destruct (pretty_pos_digits p) as (_ & H & _). }
  rewrite (leading_decimal_prefix_append _ _ Hd).
  change (leading_decimal_prefix ("-" +:+ original)) with "".
  apply append_nil_r.
Qed.

(** X28: the name under which an upload is kept determines both the clock
    and the original name: two uploads get the same stored name only when
    they have the same original name and arrive in the same millisecond. *)
Theorem uniqueName_inj (now1 now2 : Z) (original1 original2 : string) :
  0 <= now1 -> 0 <= now2 ->
  uniqueName now1 original1 = uniqueName now2 original2 ->
  now1 = now2 /\ original1 = original2.
Proof.
  intros H1 H2 Heq.
  assert (Hp : pretty now1 = pretty now2).
  { rewrite <- (clock_prefix now1 original1 H1),
      <- (clock_prefix now2 original2 H2). now rewrite Heq. }
  apply (inj pretty) in Hp. subst now2. split; [reflexivity |].
  unfold uniqueName in Heq.
  apply (inj (String.app (pretty now1))) in Heq.
  now apply (inj (String.app "-")) in Heq.
Qed.

Lemma uniqueName_inj_witness :
  1700000000000 = 1700000000000 /\ "scan.png" = "scan.png".
Proof.
  apply (uniqueName_inj 1700000000000 1700000000000 "scan.png" "scan.png");
    [lia | lia | reflexivity].
Defined.

End DiskFacts.
